(** * Configuration resolution and write protection of the Bitx agent

    A shallow embedding of [src/services/roo-config/index.ts] (the
    [.bitx] directory resolver, the subfolder discovery and the
    global/project configuration loader) and of the write-protection
    classifier exercised by the [RooProtectedController] test suite.

    Strings are [String.string]: one character stands for one code unit
    of the JavaScript string.  Asynchronous functions are computations
    over an explicit world that settle to a value or to a thrown error. *)

From Stdlib Require Import String Ascii List Bool Arith Lia.
From Stdlib Require Import Sorted Permutation Mergesort Orders OrdersEx.
From Stdlib Require Import RelationClasses.
Import ListNotations.

Local Open Scope string_scope.
Local Open Scope list_scope.

(** ** JavaScript values *)

Module Js.

(** An [Error] object as the code inspects it: [error.code] may be
    missing, [error.message] is the text given to the constructor. *)
Record Error : Type := mkError {
  code : option string;
  message : string
}.

(** The state a promise settles in. *)
Inductive Settled (A : Type) : Type :=
| Fulfilled (a : A)
| Rejected (e : Error).

Arguments Fulfilled {A} a.
Arguments Rejected {A} e.

(** An [async] function: it runs in a world, settles, and leaves a world. *)
Definition Async (W A : Type) : Type := W -> Settled A * W.

Definition ret {W A : Type} (a : A) : Async W A :=
  fun w => (Fulfilled a, w).

Definition throw {W A : Type} (e : Error) : Async W A :=
  fun w => (Rejected e, w).

(** [await m] followed by the rest of the function body. *)
Definition bind {W A B : Type} (m : Async W A) (k : A -> Async W B) : Async W B :=
  fun w =>
    match m w with
    | (Fulfilled a, w') => k a w'
    | (Rejected e, w') => (Rejected e, w')
    end.

(** [try { m } catch (error) { h error }]. *)
Definition try_catch {W A : Type} (m : Async W A) (h : Error -> Async W A) : Async W A :=
  fun w =>
    match m w with
    | (Fulfilled a, w') => (Fulfilled a, w')
    | (Rejected e, w') => h e w'
    end.

(** Truthiness of [string | null]: [null] and the empty string are falsy. *)
Definition truthy_string (s : string) : bool :=
  match s with
  | EmptyString => false
  | String _ _ => true
  end.

Definition truthy (v : option string) : bool :=
  match v with
  | None => false
  | Some s => truthy_string s
  end.

(** The text appended by [merged += v] when [v] is a string. *)
Definition text_of (v : option string) : string :=
  match v with
  | None => EmptyString
  | Some s => s
  end.

(** [error.code === c]. *)
Definition code_is (e : Error) (c : string) : bool :=
  match code e with
  | Some c' => String.eqb c' c
  | None => false
  end.

(** A [Set<string>] keeps its members in insertion order. *)
Definition StringSet : Type := list string.

Definition Set_new : StringSet := [].

Definition Set_has (s : StringSet) (x : string) : bool :=
  existsb (String.eqb x) s.

Definition Set_add (s : StringSet) (x : string) : StringSet :=
  if Set_has s x then s else s ++ [x].

Definition Array_from (s : StringSet) : list string := s.

End Js.

Import Js.

Declare Scope async_scope.
Delimit Scope async_scope with async.
Notation "x <- m ;; k" := (bind m (fun x => k))
  (at level 61, m at next level, right associativity) : async_scope.
Local Open Scope async_scope.

(** ** Ordering of strings used by [Array.prototype.sort]

    Without a comparison function [sort] orders strings by their code
    units, which is the lexicographic order of [String_as_OT]. *)

Module StringOrderFull := OT_to_Full String_as_OT.
Module StringLeBool := OTF_to_TTLB StringOrderFull.
Module StringSort := Sort StringLeBool.

Definition Array_sort (l : list string) : list string := StringSort.sort l.

(** Strict lexicographic order on strings. *)
Definition str_lt (a b : string) : Prop := String_as_OT.lt a b.

(** ** The host: Node's [path], [os] and [fs/promises] modules and the
    ripgrep wrapper of [services/search/file-search] *)

(** What [fs.stat] resolves to, as far as the code looks at it. *)
Record Stats : Type := mkStats {
  isDirectory : bool;
  isFile : bool
}.

(** One entry of the list [executeRipgrep] resolves to. *)
Record FileResult : Type := mkFileResult {
  path : string;
  type : string
}.

(** The collaborators of the service over a world [W].  [path_join] is
    variadic; [import_file_search] is the dynamic [import] of the search
    module, which settles before [executeRipgrep] can be called. *)
Record Platform (W : Type) : Type := mkPlatform {
  path_join : list string -> string;
  path_dirname : string -> string;
  os_homedir : string;
  fs_stat : string -> Async W Stats;
  fs_readFile : string -> Async W string;
  import_file_search : Async W unit;
  executeRipgrep : list string -> string -> Async W (list FileResult)
}.

Arguments path_join {W} _ _.
Arguments path_dirname {W} _ _.
Arguments os_homedir {W} _.
Arguments fs_stat {W} _ _ _.
Arguments fs_readFile {W} _ _ _.
Arguments import_file_search {W} _ _.
Arguments executeRipgrep {W} _ _ _ _.

(** ** The regular expression of the discovery loop

    [/^(.+?)[/\\]\.bitx[/\\]/]: a shortest non-empty run of characters
    other than line terminators, then a separator, [.bitx], a
    separator.  Of the line terminators only LF and CR are characters
    of [ascii]; U+2028 and U+2029 lie outside it. *)

Definition LF : ascii := "010"%char.
Definition CR : ascii := "013"%char.

Definition is_separator (c : ascii) : bool :=
  Ascii.eqb c "/"%char || Ascii.eqb c "\"%char.

(** The characters the dot of a regular expression refuses. *)
Definition is_line_terminator (c : ascii) : bool :=
  Ascii.eqb c LF || Ascii.eqb c CR.

(** [s] starts with [[/\\]\.bitx[/\\]]. *)
Definition starts_with_marker (s : string) : bool :=
  match s with
  | String c0 (String "."%char (String "b"%char (String "i"%char
      (String "t"%char (String "x"%char (String c1 _)))))) =>
      is_separator c0 && is_separator c1
  | _ => false
  end.

(** The first capture group of the match, [None] when [match] is [null]. *)
Fixpoint match_bitx_prefix (s : string) : option string :=
  match s with
  | EmptyString => None
  | String c rest =>
      if is_line_terminator c then None
      else if starts_with_marker rest then Some (String c EmptyString)
      else option_map (String c) (match_bitx_prefix rest)
  end.

(** ** [services/roo-config/index.ts] *)

Module RooConfig.

Section Service.

Context {W : Type} (P : Platform W).

Definition getGlobalRooDirectory : string :=
  let homeDir := os_homedir P in
  path_join P [homeDir; ".bitx"].

Definition getProjectRooDirectoryForCwd (cwd : string) : string :=
  path_join P [cwd; ".bitx"].

Definition directoryExists (dirPath : string) : Async W bool :=
  try_catch
    (stat <- fs_stat P dirPath ;;
     ret (isDirectory stat))
    (fun error =>
       if code_is error "ENOENT" || code_is error "ENOTDIR" then ret false
       else throw error).

Definition fileExists (filePath : string) : Async W bool :=
  try_catch
    (stat <- fs_stat P filePath ;;
     ret (isFile stat))
    (fun error =>
       if code_is error "ENOENT" || code_is error "ENOTDIR" then ret false
       else throw error).

(** [string | null] is [option string]. *)
Definition readFileIfExists (filePath : string) : Async W (option string) :=
  try_catch
    (content <- fs_readFile P filePath ;;
     ret (Some content))
    (fun error =>
       if code_is error "ENOENT" || code_is error "ENOTDIR" || code_is error "EISDIR"
       then ret None
       else throw error).

Definition ripgrep_args (cwd : string) : list string :=
  ["--files"; "--hidden"; "--follow";
   "-g"; "**/.bitx/**";
   "-g"; "!node_modules/**";
   "-g"; "!.git/**";
   cwd].

(** The body of the [for ... of results] loop. *)
Definition collect_rooDir (cwd rootRooDir : string) (rooDirs : StringSet)
    (result : FileResult) : StringSet :=
  match match_bitx_prefix (path result) with
  | Some m1 =>
      let rooDir := path_join P [cwd; m1; ".bitx"] in
      if negb (String.eqb rooDir rootRooDir) then Set_add rooDirs rooDir
      else rooDirs
  | None => rooDirs
  end.

Definition discoverSubfolderRooDirectories (cwd : string) : Async W (list string) :=
  try_catch
    (_ <- import_file_search P ;;
     let args := ripgrep_args cwd in
     results <- executeRipgrep P args cwd ;;
     let rooDirs := Set_new in
     let rootRooDir := path_join P [cwd; ".bitx"] in
     let rooDirs := fold_left (collect_rooDir cwd rootRooDir) results rooDirs in
     ret (Array_sort (Array_from rooDirs)))
    (fun _ => ret []).

Definition getRooDirectoriesForCwd (cwd : string) : list string :=
  let directories := [] in
  let directories := directories ++ [getGlobalRooDirectory] in
  let directories := directories ++ [getProjectRooDirectoryForCwd cwd] in
  directories.

Definition getAllRooDirectoriesForCwd (cwd : string) : Async W (list string) :=
  let directories := [] in
  let directories := directories ++ [getGlobalRooDirectory] in
  let directories := directories ++ [getProjectRooDirectoryForCwd cwd] in
  subfolderDirs <- discoverSubfolderRooDirectories cwd ;;
  let directories := directories ++ subfolderDirs in
  ret directories.

Definition getAgentsDirectoriesForCwd (cwd : string) : Async W (list string) :=
  let directories := [] in
  let directories := directories ++ [cwd] in
  subfolderRooDirs <- discoverSubfolderRooDirectories cwd ;;
  let directories :=
    fold_left (fun directories rooDir =>
                 let parentDir := path_dirname P rooDir in
                 directories ++ [parentDir])
              subfolderRooDirs directories in
  ret directories.

(** The object [loadConfiguration] resolves to. *)
Record Configuration : Type := mkConfiguration {
  global : option string;
  project : option string;
  merged : string
}.

(** The annotation put between the two texts. *)
Definition override_label : string :=
  (String LF (String LF "# Project-specific rules (override global):")
   ++ String LF (String LF EmptyString))%string.

Definition loadConfiguration (relativePath cwd : string) : Async W Configuration :=
  let globalDir := getGlobalRooDirectory in
  let projectDir := getProjectRooDirectoryForCwd cwd in
  let globalFilePath := path_join P [globalDir; relativePath] in
  let projectFilePath := path_join P [projectDir; relativePath] in
  globalContent <- readFileIfExists globalFilePath ;;
  projectContent <- readFileIfExists projectFilePath ;;
  let merged := EmptyString in
  let merged := if truthy globalContent then (merged ++ text_of globalContent)%string else merged in
  let merged :=
    if truthy projectContent then
      let merged := if truthy_string merged then (merged ++ override_label)%string else merged in
      (merged ++ text_of projectContent)%string
    else merged in
  ret {| global := globalContent;
         project := projectContent;
         merged := if truthy_string merged then merged else EmptyString |}.

Definition loadRooConfiguration := loadConfiguration.

End Service.

End RooConfig.

(** ** A POSIX host for running the service

    The theorems below hold for every [Platform].  To run the service on
    concrete inputs, [Posix] follows Node's [path.posix.join] and
    [path.posix.dirname], and [Mock] is a host whose file system and
    search results are fixed tables and whose world is the log of the
    calls made so far. *)

Module Posix.

Definition slash : ascii := "/"%char.

(** [s.split("/")]: never empty. *)
Fixpoint split_slash (s : string) : list string :=
  match s with
  | EmptyString => [EmptyString]
  | String c rest =>
      if Ascii.eqb c slash then EmptyString :: split_slash rest
      else match split_slash rest with
           | h :: t => String c h :: t
           | [] => [String c EmptyString]
           end
  end.

(** One step of [normalizeString] on the segments kept so far, last
    segment first. *)
Definition normalize_step (allowAboveRoot : bool) (kept : list string)
    (seg : string) : list string :=
  if String.eqb seg EmptyString || String.eqb seg "." then kept
  else if String.eqb seg ".." then
    match kept with
    | top :: below =>
        if String.eqb top ".." then seg :: kept else below
    | [] => if allowAboveRoot then [seg] else []
    end
  else seg :: kept.

Definition normalizeString (p : string) (allowAboveRoot : bool) : string :=
  String.concat "/" (rev (fold_left (normalize_step allowAboveRoot) (split_slash p) [])).

Definition starts_with_slash (p : string) : bool :=
  match p with
  | String c _ => Ascii.eqb c slash
  | EmptyString => false
  end.

Fixpoint ends_with_slash (p : string) : bool :=
  match p with
  | EmptyString => false
  | String c EmptyString => Ascii.eqb c slash
  | String _ rest => ends_with_slash rest
  end.

Definition normalize (p : string) : string :=
  if String.eqb p EmptyString then "."
  else
    let isAbsolute := starts_with_slash p in
    let trailingSeparator := ends_with_slash p in
    let p' := normalizeString p (negb isAbsolute) in
    if String.eqb p' EmptyString then
      if isAbsolute then "/" else if trailingSeparator then "./" else "."
    else
      let p' := if trailingSeparator then (p' ++ "/")%string else p' in
      if isAbsolute then String slash p' else p'.

Definition join (args : list string) : string :=
  match filter (fun a => negb (String.eqb a EmptyString)) args with
  | [] => "."
  | parts => normalize (String.concat "/" parts)
  end.

(** The downward loop of [dirname]: [i] runs from the last index to 1. *)
Fixpoint dirname_scan (cs : list ascii) (i : nat) (matchedSlash : bool) : option nat :=
  match i with
  | 0 => None
  | S i' =>
      if Ascii.eqb (nth i cs zero) slash then
        if matchedSlash then dirname_scan cs i' true else Some i
      else dirname_scan cs i' false
  end.

Definition dirname (p : string) : string :=
  if String.eqb p EmptyString then "."
  else
    let hasRoot := starts_with_slash p in
    match dirname_scan (list_ascii_of_string p) (String.length p - 1) true with
    | None => if hasRoot then "/" else "."
    | Some e => if hasRoot && Nat.eqb e 1 then "//" else String.substring 0 e p
    end.

End Posix.

Module Mock.

(** The world of the mock host: the calls made so far, oldest first. *)
Definition World : Type := list string.

Definition ENOENT : Error := {| code := Some "ENOENT"; message := "ENOENT" |}.
Definition ENOTDIR : Error := {| code := Some "ENOTDIR"; message := "ENOTDIR" |}.
Definition EISDIR : Error := {| code := Some "EISDIR"; message := "EISDIR" |}.
Definition EACCES : Error := {| code := Some "EACCES"; message := "Permission denied" |}.

(** The outcome recorded for [p], a missing entry being a missing file. *)
Fixpoint outcome {A : Type} (table : list (string * Settled A)) (p : string) : Settled A :=
  match table with
  | [] => Rejected ENOENT
  | (q, r) :: rest => if String.eqb q p then r else outcome rest p
  end.

Definition logged {A : Type} (call : string) (r : Settled A) : Async World A :=
  fun w => (r, w ++ [call]).

Definition platform (home : string)
    (stats : list (string * Settled Stats))
    (files : list (string * Settled string))
    (search : Settled (list FileResult)) : Platform World :=
  {| path_join := Posix.join;
     path_dirname := Posix.dirname;
     os_homedir := home;
     fs_stat := fun p => logged ("stat " ++ p)%string (outcome stats p);
     fs_readFile := fun p => logged ("readFile " ++ p)%string (outcome files p);
     import_file_search := ret tt;
     executeRipgrep := fun _ cwd => logged ("rg " ++ cwd)%string search |}.

Definition file (p : string) : FileResult := {| path := p; type := "file" |}.

End Mock.

(** ** The write-protection classifier

    The controller class itself is not among the sources; its test suite
    is.  The pattern list is the one the suite expects from
    [getProtectedPatterns]; the matcher is modelled from the
    specification. *)

Module RooProtectedController.

(** The list the test suite expects from [getProtectedPatterns()]. *)
Definition PROTECTED_PATTERNS : list string :=
  [".rooignore";
   ".roomodes";
   ".roorules*";
   ".clinerules*";
   ".bitx/**";
   ".vscode/**";
   "*.code-workspace";
   ".rooprotected";
   "AGENTS.md";
   "AGENT.md"].

Definition getProtectedPatterns : list string := PROTECTED_PATTERNS.

(** Modelled from the spec: the compiled form of a pattern, absent from the
    sources; one segment is a literal, a single-level wildcard (a glob
    with a star, matched inside one segment) or the multi-level
    wildcard. *)
Inductive Segment : Type :=
| Literal (name : string)
| Wildcard (glob : string)
| Globstar.

(** Modelled from the spec: a compiled pattern, absent from the sources; a
    pattern with a leading separator is anchored at the root, any other
    matches at any depth. *)
Record Compiled : Type := mkCompiled {
  anchored : bool;
  segments : list Segment
}.

Definition star : ascii := "*"%char.

(** Modelled from the spec: the test that tells a wildcard segment of the
    absent matcher from a literal one. *)
Fixpoint has_star (s : string) : bool :=
  match s with
  | EmptyString => false
  | String c rest => Ascii.eqb c star || has_star rest
  end.

(** Modelled from the spec: separator normalisation of the absent
    [isWriteProtected]; every backslash becomes a slash. *)
Fixpoint toPosix (s : string) : string :=
  match s with
  | EmptyString => EmptyString
  | String c rest =>
      String (if Ascii.eqb c "\"%char then "/"%char else c) (toPosix rest)
  end.

Definition nonempty (s : string) : bool := negb (String.eqb s EmptyString).

(** Modelled from the spec: the segments the absent matcher works on; a
    normalised path is cut at its slashes and empty pieces are dropped. *)
Definition path_segments (s : string) : list string :=
  filter nonempty (Posix.split_slash s).

(** Modelled from the spec: the absoluteness test of the absent
    [isWriteProtected], on a normalised path; a leading separator. *)
Definition isAbsolute (s : string) : bool := Posix.starts_with_slash s.

(** Modelled from the spec: compilation of one pattern string of the absent
    controller into its segment representation. *)
Definition compile_segment (s : string) : Segment :=
  if String.eqb s "**" then Globstar
  else if has_star s then Wildcard s
  else Literal s.

(** Modelled from the spec: compilation of a whole pattern of the absent
    controller; a leading separator anchors it. *)
Definition compile (pattern : string) : Compiled :=
  {| anchored := isAbsolute pattern;
     segments := map compile_segment (path_segments pattern) |}.

(** Modelled from the spec: the single-level wildcard of the absent matcher;
    a star stands for any run of characters of the segment, the empty
    run included. *)
Fixpoint glob_match (g s : string) : bool :=
  match g with
  | EmptyString => String.eqb s EmptyString
  | String c g' =>
      if Ascii.eqb c star then
        (fix any_run (s : string) : bool :=
           glob_match g' s ||
           match s with
           | EmptyString => false
           | String _ s' => any_run s'
           end) s
      else
        match s with
        | EmptyString => false
        | String d s' => Ascii.eqb c d && glob_match g' s'
        end
  end.

(** Modelled from the spec: matching of compiled segments of the absent
    matcher against path segments; the multi-level wildcard takes one or
    more whole segments, across directory boundaries. *)
Fixpoint match_segments (pat : list Segment) (p : list string) : bool :=
  match pat with
  | [] => match p with [] => true | _ :: _ => false end
  | Globstar :: pat' =>
      (fix below (p : list string) : bool :=
         match p with
         | [] => false
         | _ :: p' => match_segments pat' p' || below p'
         end) p
  | Literal name :: pat' =>
      match p with
      | [] => false
      | s :: p' => String.eqb name s && match_segments pat' p'
      end
  | Wildcard g :: pat' =>
      match p with
      | [] => false
      | s :: p' => glob_match g s && match_segments pat' p'
      end
  end.

(** The trailing runs of a list, the whole list first. *)
Fixpoint tails {A : Type} (l : list A) : list (list A) :=
  match l with
  | [] => [[]]
  | _ :: t => l :: tails t
  end.

(** Modelled from the spec: a pattern of the absent matcher against a
    normalised path; without a leading separator it matches the trailing
    segments of the path at any depth. *)
Definition matches (c : Compiled) (p : list string) : bool :=
  if anchored c then match_segments (segments c) p
  else existsb (match_segments (segments c)) (tails p).

(** Modelled from the spec: the pattern set of the absent controller,
    compiled once. *)
Definition compiled_patterns : list Compiled := map compile PROTECTED_PATTERNS.

(** Modelled from the spec: the test that a path of the absent
    [isWriteProtected] lies under the root; [l] without its prefix [pre],
    when it has it. *)
Fixpoint strip_prefix (pre l : list string) : option (list string) :=
  match pre with
  | [] => Some l
  | x :: pre' =>
      match l with
      | [] => None
      | y :: l' => if String.eqb x y then strip_prefix pre' l' else None
      end
  end.

(** Modelled from the spec: the rewrite of the absent [isWriteProtected]; an
    absolute path under the workspace root becomes root-relative, any
    other path is kept. *)
Definition relative_segments (cwd normalized : string) : list string :=
  let segs := path_segments normalized in
  if isAbsolute normalized then
    match strip_prefix (path_segments (toPosix cwd)) segs with
    | Some rel => rel
    | None => segs
    end
  else segs.

(** Modelled from the spec: [isWriteProtected] (the spec's [isProtected]) of
    the absent controller built for the workspace root [cwd]; separators
    are normalised, the path is made root-relative, and any matching
    pattern protects it. *)
Definition isWriteProtected (cwd filePath : string) : bool :=
  let normalized := toPosix filePath in
  let rel := relative_segments cwd normalized in
  existsb (fun c => matches c rel) compiled_patterns.

(** One element of the annotated list. *)
Record Annotated : Type := mkAnnotated {
  path : string;
  isProtected : bool
}.

(** Modelled from the spec: [annotatePathsWithProtection] of the absent
    controller; one record per input path, in order, carrying the
    original string. *)
Definition annotatePathsWithProtection (cwd : string) (paths : list string)
    : list Annotated :=
  map (fun filePath =>
         {| path := filePath; isProtected := isWriteProtected cwd filePath |})
      paths.

(** Modelled from the spec: [getProtectedFiles] of the absent controller;
    the original strings that are protected, each once. *)
Definition getProtectedFiles (cwd : string) (paths : list string) : StringSet :=
  fold_left (fun s filePath =>
               if isWriteProtected cwd filePath then Set_add s filePath else s)
            paths Set_new.

(** The patterns that name one file exactly. *)
Definition exact_names : list string :=
  filter (fun p => negb (has_star p)) PROTECTED_PATTERNS.

End RooProtectedController.

(** ** [packages/cloud/src/utils.ts] *)

Module CloudUtils.

(** The part of a VS Code [ExtensionContext] that [getUserAgent] reads.
    Every link of the optional chain may be missing; the [version] of a
    package manifest is a string. *)
Record PackageJSON : Type := mkPackageJSON {
  version : option string
}.

Record Extension : Type := mkExtension {
  packageJSON : option PackageJSON
}.

Record ExtensionContext : Type := mkExtensionContext {
  extension : option Extension
}.

(** [o?.f]: [undefined] when [o] is missing. *)
Definition chain {A B : Type} (o : option A) (f : A -> option B) : option B :=
  match o with
  | Some a => f a
  | None => None
  end.

(** [a || b] on [string | undefined]. *)
Definition or_else (a : option string) (b : string) : string :=
  if truthy a then text_of a else b.

Definition getUserAgent (context : option ExtensionContext) : string :=
  ("Bitx " ++
   or_else (chain (chain (chain context extension) packageJSON) version) "unknown")%string.

End CloudUtils.

(** * Vocabulary of the statements

    The predicates the theorems are stated with, and the hosts of the
    test suite they are run on. *)

(** What the loop maintains about [rooDirs]. *)
Definition rooDirs_ok (root : string) (s : StringSet) : Prop :=
  NoDup s /\ ~ In root s.

(** The enumerator fails with [e] and leaves the world [w']: the dynamic
    import of the search module rejects, or the ripgrep call does. *)
Definition enumerator_fails {W : Type} (P : Platform W) (cwd : string)
    (w : W) (e : Error) (w' : W) : Prop :=
  import_file_search P w = (Rejected e, w') \/
  exists w0, import_file_search P w = (Fulfilled tt, w0) /\
             executeRipgrep P (RooConfig.ripgrep_args cwd) cwd w0 = (Rejected e, w').

(** The failures [readFileIfExists] takes for absence. *)
Definition benign (e : Error) : Prop :=
  code e = Some "ENOENT" \/ code e = Some "ENOTDIR" \/ code e = Some "EISDIR".

(** A read that succeeded or failed with a benign error. *)
Definition expected (r : Settled string) : Prop :=
  forall e, r = Rejected e -> benign e.

(** The content a source contributes: its text, or [null]. *)
Definition source_text (r : Settled string) : option string :=
  match r with
  | Fulfilled t => Some t
  | Rejected _ => None
  end.

(** The merge rule in the words of the specification, by presence. *)
Definition merge_rule_as_stated (g p : option string) : string :=
  match g, p with
  | None, None => EmptyString
  | Some tg, None => tg
  | None, Some tp => tp
  | Some tg, Some tp => (tg ++ RooConfig.override_label ++ tp)%string
  end.

(** The value of [merged] that lines 379-395 compute from the two contents. *)
Definition merged_of (g p : option string) : string :=
  let merged := EmptyString in
  let merged := if truthy g then (merged ++ text_of g)%string else merged in
  let merged :=
    if truthy p then
      let merged :=
        if truthy_string merged then (merged ++ RooConfig.override_label)%string
        else merged in
      (merged ++ text_of p)%string
    else merged in
  if truthy_string merged then merged else EmptyString.

(** The two paths [loadConfiguration] reads. *)
Definition globalFilePath {W : Type} (P : Platform W) (relativePath : string) : string :=
  path_join P [RooConfig.getGlobalRooDirectory P; relativePath].

Definition projectFilePath {W : Type} (P : Platform W) (relativePath cwd : string) : string :=
  path_join P [RooConfig.getProjectRooDirectoryForCwd P cwd; relativePath].

(** A name: a string without a slash or a backslash. *)
Fixpoint separator_free (s : string) : bool :=
  match s with
  | EmptyString => true
  | String c rest => negb (is_separator c) && separator_free rest
  end.

(** [p] matches a protection pattern that matches at any depth. *)
Definition matches_at_any_depth (p : string) : Prop :=
  exists pattern,
    In pattern RooProtectedController.PROTECTED_PATTERNS /\
    RooProtectedController.anchored (RooProtectedController.compile pattern) = false /\
    RooProtectedController.matches
      (RooProtectedController.compile pattern)
      (RooProtectedController.path_segments (RooProtectedController.toPosix p)) = true.

(** The workspace root of the test suite. *)
Definition TEST_CWD : string := "/test/workspace".

(** The failures [directoryExists] and [fileExists] take for absence. *)
Definition not_found (e : Error) : Prop :=
  code e = Some "ENOENT" \/ code e = Some "ENOTDIR".

(** No character of [m] is a line terminator. *)
Fixpoint no_line_terminator (m : string) : bool :=
  match m with
  | EmptyString => true
  | String c rest => negb (is_line_terminator c) && no_line_terminator rest
  end.

(** [s] is [m] followed by a separator, [.bitx], a separator and more. *)
Definition marked_after (m s : string) : Prop :=
  exists c0 c1 rest,
    is_separator c0 = true /\ is_separator c1 = true /\
    s = (m ++ String c0 (".bitx" ++ String c1 rest))%string.

(** [d] is the directory the discovery loop derives from some search
    result, and it is not the root directory [root]. *)
Definition candidate_of {W : Type} (P : Platform W) (cwd root : string)
    (results : list FileResult) (d : string) : Prop :=
  exists r m1,
    In r results /\
    match_bitx_prefix (path r) = Some m1 /\
    d = path_join P [cwd; m1; ".bitx"] /\
    d <> root.

(** The text put between the two contents: the label when both are
    truthy, nothing otherwise. *)
Definition separator_between (g p : option string) : string :=
  if truthy g && truthy p then RooConfig.override_label else EmptyString.

(** No segment of [p] is [.] or [..]. *)
Definition no_dot_segments (p : string) : Prop :=
  let segs := RooProtectedController.path_segments (RooProtectedController.toPosix p) in
  ~ In "." segs /\ ~ In ".." segs.

(** ** Hosts of the test suite *)

(** Home [/mock/home] and the outcomes of reading the two rule files. *)
Definition rules_host (g p : Settled string) : Platform Mock.World :=
  Mock.platform "/mock/home" []
    [("/mock/home/.bitx/rules/rules.md", g);
     ("/project/path/.bitx/rules/rules.md", p)]
    (Fulfilled []).

(** The search of the test "should return empty array on ripgrep error". *)
Definition failing_search : Platform Mock.World :=
  Mock.platform "/mock/home" [] []
    (Rejected {| code := None; message := "ripgrep failed" |}).

(** The search of the test "should handle nested subdirectories". *)
Definition nested_search : Platform Mock.World :=
  Mock.platform "/mock/home" [] []
    (Fulfilled [Mock.file "packages/core/.bitx/rules/rule.md";
                Mock.file "packages/utils/.bitx/rules-code/rule.md"]).

(** A search that reports its results in one order on its first call and
    in the reverse order, the first result twice, on any later call. *)
Definition reordering_search : Platform Mock.World :=
  let results :=
    [Mock.file "zebra/.bitx/rules/rule.md";
     Mock.file "apple/.bitx/rules/rule.md";
     Mock.file "mango/.bitx/rules/rule.md"] in
  {| path_join := Posix.join;
     path_dirname := Posix.dirname;
     os_homedir := "/mock/home";
     fs_stat := fun p => Mock.logged ("stat " ++ p)%string (Rejected Mock.ENOENT);
     fs_readFile := fun p => Mock.logged ("readFile " ++ p)%string (Rejected Mock.ENOENT);
     import_file_search := ret tt;
     executeRipgrep := fun _ cwd w =>
       (Fulfilled (match w with
                   | [] => results
                   | _ :: _ => rev results ++ firstn 1 results
                   end),
        w ++ [("rg " ++ cwd)%string]) |}.

(** A workspace opened on the home directory itself. *)
Definition home_workspace : Platform Mock.World :=
  Mock.platform "/mock/home" []
    [("/mock/home/.bitx/rules/rules.md", Fulfilled "rules")]
    (Fulfilled []).

(** * Properties of the configuration service *)

(** ** Sorting and the insertion-ordered set *)

Lemma leb_neq_lt (a b : string) :
  is_true (StringLeBool.leb a b) -> a <> b -> str_lt a b.
Proof.
  change (StringLeBool.leb a b)
    with (match String_as_OT.compare a b with Gt => false | _ => true end).
  unfold str_lt, String_as_OT.lt.
  destruct (String_as_OT.compare_spec a b) as [Heq | Hlt | Hgt]; intros Hle Hne.
  - contradiction.
  - reflexivity.
  - discriminate Hle.
Qed.

Lemma StronglySorted_strict (l : list string) :
  StronglySorted (fun x y => is_true (StringLeBool.leb x y)) l ->
  NoDup l ->
  StronglySorted str_lt l.
Proof.
  induction 1 as [| a l Hs IH Hall]; intros Hnd.
  - constructor.
  - inversion Hnd as [| ? ? Hnotin Hnd']; subst.
    constructor.
    + apply IH; assumption.
    + rewrite Forall_forall in *. intros x Hx.
      apply leb_neq_lt.
      * apply Hall; assumption.
      * intros ->. contradiction.
Qed.

Lemma Array_sort_Permutation (l : list string) : Permutation l (Array_sort l).
Proof. apply StringSort.Permuted_sort. Qed.

Lemma Array_sort_strict (l : list string) :
  NoDup l -> StronglySorted str_lt (Array_sort l).
Proof.
  intros Hnd. apply StronglySorted_strict.
  - apply StringSort.StronglySorted_sort, StringLeBool.leb_trans.
  - eapply Permutation_NoDup; [apply Array_sort_Permutation | assumption].
Qed.

Lemma Set_has_In (s : StringSet) (x : string) : Set_has s x = true <-> In x s.
Proof.
  unfold Set_has. rewrite existsb_exists. split.
  - intros [y [Hy Heq]]. apply String.eqb_eq in Heq. subst. assumption.
  - intros Hx. exists x. split; [assumption | apply String.eqb_refl].
Qed.

Lemma Set_add_NoDup (s : StringSet) (x : string) : NoDup s -> NoDup (Set_add s x).
Proof.
  intros Hnd. unfold Set_add. destruct (Set_has s x) eqn:Hhas; [assumption |].
  apply NoDup_app; [assumption | repeat constructor; intros [] | ].
  intros y Hy [<- | []].
  apply Set_has_In in Hy. congruence.
Qed.

Lemma Set_add_In (s : StringSet) (x y : string) :
  In y (Set_add s x) -> y = x \/ In y s.
Proof.
  unfold Set_add. destruct (Set_has s x).
  - auto.
  - rewrite in_app_iff. simpl. intuition.
Qed.

(** ** The discovery loop keeps a duplicate-free set without the root *)

Section ServiceFacts.

Context {W : Type} (P : Platform W).

Lemma collect_rooDir_ok (cwd root : string) (s : StringSet) (r : FileResult) :
  rooDirs_ok root s -> rooDirs_ok root (RooConfig.collect_rooDir P cwd root s r).
Proof.
  intros [Hnd Hroot]. unfold RooConfig.collect_rooDir.
  destruct (match_bitx_prefix (path r)) as [m1 |]; [| split; assumption].
  cbv zeta.
  destruct (String.eqb (path_join P [cwd; m1; ".bitx"]) root) eqn:Heq; simpl.
  - split; assumption.
  - split.
    + apply Set_add_NoDup; assumption.
    + intros Hin. apply Set_add_In in Hin. destruct Hin as [-> | Hin].
      * rewrite String.eqb_refl in Heq. discriminate.
      * contradiction.
Qed.

Lemma collect_all_ok (cwd root : string) (results : list FileResult) (s : StringSet) :
  rooDirs_ok root s ->
  rooDirs_ok root (fold_left (RooConfig.collect_rooDir P cwd root) results s).
Proof.
  revert s. induction results as [| r results IH]; intros s Hs; simpl.
  - assumption.
  - apply IH, collect_rooDir_ok, Hs.
Qed.

(** The three ways the body of [discoverSubfolderRooDirectories] runs. *)
Lemma discover_cases (cwd : string) (w : W) :
  (exists e w', import_file_search P w = (Rejected e, w') /\
     RooConfig.discoverSubfolderRooDirectories P cwd w = (Fulfilled [], w'))
  \/ (exists w0 e w', import_file_search P w = (Fulfilled tt, w0) /\
        executeRipgrep P (RooConfig.ripgrep_args cwd) cwd w0 = (Rejected e, w') /\
        RooConfig.discoverSubfolderRooDirectories P cwd w = (Fulfilled [], w'))
  \/ (exists w0 results w', import_file_search P w = (Fulfilled tt, w0) /\
        executeRipgrep P (RooConfig.ripgrep_args cwd) cwd w0 = (Fulfilled results, w') /\
        RooConfig.discoverSubfolderRooDirectories P cwd w =
          (Fulfilled
             (Array_sort
                (fold_left
                   (RooConfig.collect_rooDir P cwd (RooConfig.getProjectRooDirectoryForCwd P cwd))
                   results Set_new)), w')).
Proof.
  unfold RooConfig.discoverSubfolderRooDirectories, try_catch, bind.
  destruct (import_file_search P w) as [[[] | e] w0] eqn:Himp.
  - destruct (executeRipgrep P (RooConfig.ripgrep_args cwd) cwd w0)
      as [[results | e] w'] eqn:Hrg.
    + right; right. exists w0, results, w'.
      rewrite Hrg. repeat split; reflexivity.
    + right; left. exists w0, e, w'.
      rewrite Hrg. repeat split; reflexivity.
  - left. exists e, w0. split; reflexivity.
Qed.

Lemma discover_total (cwd : string) (w : W) :
  exists dirs w',
    RooConfig.discoverSubfolderRooDirectories P cwd w = (Fulfilled dirs, w').
Proof.
  destruct (discover_cases cwd w)
    as [(e & w' & _ & H) | [(w0 & e & w' & _ & _ & H) | (w0 & rs & w' & _ & _ & H)]];
    rewrite H; eauto.
Qed.

Lemma push_all {A B : Type} (f : A -> B) (l : list A) (acc : list B) :
  fold_left (fun directories x => directories ++ [f x]) l acc = acc ++ map f l.
Proof.
  revert acc. induction l as [| x l IH]; intros acc; simpl.
  - symmetry. apply app_nil_r.
  - rewrite IH, <- app_assoc. reflexivity.
Qed.

End ServiceFacts.

(** ** Discovery *)

(** C3: the list [discoverSubfolderRooDirectories(cwd)] resolves to never
    contains the project-root directory [getProjectRooDirectoryForCwd(cwd)],
    has no duplicate, and is strictly ascending in the lexicographic
    order of strings; the call always resolves. *)
Theorem discover_excludes_root_nodup_ascending
    {W : Type} (P : Platform W) (cwd : string) (w : W) :
  exists dirs w',
    RooConfig.discoverSubfolderRooDirectories P cwd w = (Fulfilled dirs, w') /\
    ~ In (RooConfig.getProjectRooDirectoryForCwd P cwd) dirs /\
    NoDup dirs /\
    StronglySorted str_lt dirs.
Proof.
  destruct (discover_cases P cwd w)
    as [(e & w' & _ & H) | [(w0 & e & w' & _ & _ & H) | (w0 & rs & w' & _ & _ & H)]];
    rewrite H.
  - exists [], w'. repeat split; auto; constructor.
  - exists [], w'. repeat split; auto; constructor.
  - eexists _, w'. split; [reflexivity |].
    destruct (collect_all_ok P cwd (RooConfig.getProjectRooDirectoryForCwd P cwd)
                rs Set_new) as [Hnd Hroot].
    { split; [constructor | intros []]. }
    split; [| split].
    + intros Hin. apply Hroot.
      eapply Permutation_in; [symmetry; apply Array_sort_Permutation | exact Hin].
    + eapply Permutation_NoDup; [apply Array_sort_Permutation | exact Hnd].
    + apply Array_sort_strict, Hnd.
Qed.

(** C4: whatever failure the file enumerator raises,
    [discoverSubfolderRooDirectories(cwd)] catches it and resolves to the
    empty list; the error does not reach the caller. *)
Theorem discover_catches_enumerator_failure
    {W : Type} (P : Platform W) (cwd : string) (w : W) (e : Error) (w' : W) :
  enumerator_fails P cwd w e w' ->
  RooConfig.discoverSubfolderRooDirectories P cwd w = (Fulfilled [], w').
Proof.
  unfold RooConfig.discoverSubfolderRooDirectories, try_catch, bind.
  intros [Himp | (w0 & Himp & Hrg)]; rewrite Himp.
  - reflexivity.
  - rewrite Hrg. reflexivity.
Qed.

Lemma discover_catches_enumerator_failure_witness :
  RooConfig.discoverSubfolderRooDirectories failing_search "/project/path" []
  = (Fulfilled [], ["rg /project/path"]).
Proof.
  apply (discover_catches_enumerator_failure failing_search "/project/path" []
           {| code := None; message := "ripgrep failed" |}).
  right. exists []. split; reflexivity.
Defined.

(** C6: [getAllRooDirectoriesForCwd(cwd)] is the global directory, the
    project directory, then the list of
    [discoverSubfolderRooDirectories(cwd)] in its order, so its length is
    two more than the length of that list. *)
Theorem getAll_is_global_project_subfolders
    {W : Type} (P : Platform W) (cwd : string) (w : W) :
  exists subs dirs w',
    RooConfig.discoverSubfolderRooDirectories P cwd w = (Fulfilled subs, w') /\
    RooConfig.getAllRooDirectoriesForCwd P cwd w = (Fulfilled dirs, w') /\
    firstn 2 dirs =
      [RooConfig.getGlobalRooDirectory P; RooConfig.getProjectRooDirectoryForCwd P cwd] /\
    skipn 2 dirs = subs /\
    List.length dirs = 2 + List.length subs.
Proof.
  destruct (discover_total P cwd w) as (subs & w' & Hd).
  exists subs, (RooConfig.getGlobalRooDirectory P
                  :: RooConfig.getProjectRooDirectoryForCwd P cwd :: subs), w'.
  split; [exact Hd |].
  unfold RooConfig.getAllRooDirectoriesForCwd, bind. rewrite Hd.
  repeat split; reflexivity.
Qed.

(** C7: [getAgentsDirectoriesForCwd(cwd)] starts with [cwd], also when
    nothing is discovered, and continues with [path.dirname] of each
    element of [discoverSubfolderRooDirectories(cwd)], in the order of
    discovery. *)
Theorem getAgents_is_root_then_parents
    {W : Type} (P : Platform W) (cwd : string) (w : W) :
  exists subs dirs w',
    RooConfig.discoverSubfolderRooDirectories P cwd w = (Fulfilled subs, w') /\
    RooConfig.getAgentsDirectoriesForCwd P cwd w = (Fulfilled dirs, w') /\
    hd_error dirs = Some cwd /\
    tl dirs = map (path_dirname P) subs /\
    (subs = [] -> dirs = [cwd]).
Proof.
  destruct (discover_total P cwd w) as (subs & w' & Hd).
  exists subs, (cwd :: map (path_dirname P) subs), w'.
  split; [exact Hd |].
  unfold RooConfig.getAgentsDirectoriesForCwd, bind. rewrite Hd.
  cbv zeta. rewrite push_all. simpl.
  repeat split; try reflexivity.
  intros ->. reflexivity.
Qed.

(** ** Loading and merging *)

Section LoadFacts.

Context {W : Type} (P : Platform W).

Lemma code_is_true (e : Error) (c : string) : code_is e c = true <-> code e = Some c.
Proof.
  unfold code_is. destruct (code e) as [c' |].
  - rewrite String.eqb_eq. split; congruence.
  - split; discriminate.
Qed.

Lemma benign_test (e : Error) :
  code_is e "ENOENT" || code_is e "ENOTDIR" || code_is e "EISDIR" = true <-> benign e.
Proof.
  unfold benign. rewrite !orb_true_iff, !code_is_true. tauto.
Qed.

(** [readFileIfExists] by the outcome of the read. *)
Lemma readFileIfExists_fulfilled (filePath : string) (w w' : W) (t : string) :
  fs_readFile P filePath w = (Fulfilled t, w') ->
  RooConfig.readFileIfExists P filePath w = (Fulfilled (Some t), w').
Proof.
  intros H. unfold RooConfig.readFileIfExists, try_catch, bind. rewrite H. reflexivity.
Qed.

Lemma readFileIfExists_benign (filePath : string) (w w' : W) (e : Error) :
  fs_readFile P filePath w = (Rejected e, w') -> benign e ->
  RooConfig.readFileIfExists P filePath w = (Fulfilled None, w').
Proof.
  intros H Hb. unfold RooConfig.readFileIfExists, try_catch, bind. rewrite H.
  apply benign_test in Hb. rewrite Hb. reflexivity.
Qed.

Lemma readFileIfExists_unexpected (filePath : string) (w w' : W) (e : Error) :
  fs_readFile P filePath w = (Rejected e, w') -> ~ benign e ->
  RooConfig.readFileIfExists P filePath w = (Rejected e, w').
Proof.
  intros H Hb. unfold RooConfig.readFileIfExists, try_catch, bind. rewrite H.
  destruct (code_is e "ENOENT" || code_is e "ENOTDIR" || code_is e "EISDIR") eqn:Ht.
  - apply benign_test in Ht. contradiction.
  - reflexivity.
Qed.

Lemma readFileIfExists_expected (filePath : string) (w w' : W) (r : Settled string) :
  fs_readFile P filePath w = (r, w') -> expected r ->
  RooConfig.readFileIfExists P filePath w = (Fulfilled (source_text r), w').
Proof.
  intros H He. destruct r as [t | e].
  - apply readFileIfExists_fulfilled, H.
  - apply readFileIfExists_benign with (e := e); [exact H | exact (He e eq_refl)].
Qed.

(** [loadConfiguration] by the outcome of its two reads. *)
Lemma loadConfiguration_global_rejected (relativePath cwd : string) (w w1 : W) (e : Error) :
  RooConfig.readFileIfExists P (globalFilePath P relativePath) w = (Rejected e, w1) ->
  RooConfig.loadConfiguration P relativePath cwd w = (Rejected e, w1).
Proof.
  intros H. unfold RooConfig.loadConfiguration, bind. cbv zeta.
  unfold globalFilePath in H. rewrite H. reflexivity.
Qed.

Lemma loadConfiguration_project_rejected (relativePath cwd : string) (w w1 w2 : W)
    (g : option string) (e : Error) :
  RooConfig.readFileIfExists P (globalFilePath P relativePath) w = (Fulfilled g, w1) ->
  RooConfig.readFileIfExists P (projectFilePath P relativePath cwd) w1 = (Rejected e, w2) ->
  RooConfig.loadConfiguration P relativePath cwd w = (Rejected e, w2).
Proof.
  intros Hg Hp. unfold RooConfig.loadConfiguration, bind. cbv zeta.
  unfold globalFilePath in Hg. unfold projectFilePath in Hp.
  rewrite Hg, Hp. reflexivity.
Qed.

Lemma loadConfiguration_fulfilled (relativePath cwd : string) (w w1 w2 : W)
    (g p : option string) :
  RooConfig.readFileIfExists P (globalFilePath P relativePath) w = (Fulfilled g, w1) ->
  RooConfig.readFileIfExists P (projectFilePath P relativePath cwd) w1 = (Fulfilled p, w2) ->
  RooConfig.loadConfiguration P relativePath cwd w =
    (Fulfilled {| RooConfig.global := g;
                  RooConfig.project := p;
                  RooConfig.merged := merged_of g p |}, w2).
Proof.
  intros Hg Hp. unfold RooConfig.loadConfiguration, bind. cbv zeta.
  unfold globalFilePath in Hg. unfold projectFilePath in Hp.
  rewrite Hg, Hp. reflexivity.
Qed.

End LoadFacts.

Lemma append_assoc (a b c : string) : ((a ++ b) ++ c = a ++ (b ++ c))%string.
Proof. induction a as [| x a IH]; simpl; [reflexivity | rewrite IH; reflexivity]. Qed.

Lemma merged_of_none_none : merged_of None None = EmptyString.
Proof. reflexivity. Qed.

Lemma merged_of_global_only (t : string) : merged_of (Some t) None = t.
Proof. destruct t; reflexivity. Qed.

Lemma merged_of_project_only (t : string) : merged_of None (Some t) = t.
Proof. destruct t; reflexivity. Qed.

Lemma merged_of_both (tg tp : string) :
  tg <> EmptyString -> tp <> EmptyString ->
  merged_of (Some tg) (Some tp) = (tg ++ RooConfig.override_label ++ tp)%string.
Proof.
  intros Hg Hp. destruct tg as [| a tg]; [contradiction |].
  destruct tp as [| b tp]; [contradiction |].
  unfold merged_of. simpl. rewrite append_assoc. reflexivity.
Qed.

Lemma merged_of_empty_global (p : string) : merged_of (Some EmptyString) (Some p) = p.
Proof. destruct p; reflexivity. Qed.

Lemma merged_of_empty_project (g : string) : merged_of (Some g) (Some EmptyString) = g.
Proof. destruct g; reflexivity. Qed.

(** C1 (as amended): with [g] and [p] the contents read for the global
    and the project source ([None] for an absent one), the result carries
    [g] and [p] unchanged; [merged] is empty when neither is present, the
    one text when exactly one is present, and
    [g + label + p] when both are present and neither is the empty
    string. *)
Theorem loadConfiguration_merge_rule
    {W : Type} (P : Platform W) (relativePath cwd : string) (w w1 w2 : W)
    (g p : option string) :
  RooConfig.readFileIfExists P (globalFilePath P relativePath) w = (Fulfilled g, w1) ->
  RooConfig.readFileIfExists P (projectFilePath P relativePath cwd) w1 = (Fulfilled p, w2) ->
  exists c,
    RooConfig.loadConfiguration P relativePath cwd w = (Fulfilled c, w2) /\
    RooConfig.global c = g /\
    RooConfig.project c = p /\
    (g = None -> p = None -> RooConfig.merged c = EmptyString) /\
    (forall t, g = Some t -> p = None -> RooConfig.merged c = t) /\
    (forall t, g = None -> p = Some t -> RooConfig.merged c = t) /\
    (forall tg tp, g = Some tg -> p = Some tp ->
       tg <> EmptyString -> tp <> EmptyString ->
       RooConfig.merged c = (tg ++ RooConfig.override_label ++ tp)%string).
Proof.
  intros Hg Hp. eexists. split.
  - eapply loadConfiguration_fulfilled; eassumption.
  - simpl. repeat split.
    + intros -> ->. apply merged_of_none_none.
    + intros t -> ->. apply merged_of_global_only.
    + intros t -> ->. apply merged_of_project_only.
    + intros tg tp -> -> Htg Htp. apply merged_of_both; assumption.
Qed.

Lemma loadConfiguration_merge_rule_witness :
  exists c,
    RooConfig.loadConfiguration
      (rules_host (Fulfilled "global content") (Fulfilled "project content"))
      "rules/rules.md" "/project/path" []
    = (Fulfilled c,
       ["readFile /mock/home/.bitx/rules/rules.md";
        "readFile /project/path/.bitx/rules/rules.md"]) /\
    RooConfig.merged c =
      ("global content" ++ RooConfig.override_label ++ "project content")%string.
Proof.
  destruct (loadConfiguration_merge_rule
              (rules_host (Fulfilled "global content") (Fulfilled "project content"))
              "rules/rules.md" "/project/path" []
              ["readFile /mock/home/.bitx/rules/rules.md"]
              ["readFile /mock/home/.bitx/rules/rules.md";
               "readFile /project/path/.bitx/rules/rules.md"]
              (Some "global content") (Some "project content")
              eq_refl eq_refl)
    as (c & Hrun & _ & _ & _ & _ & _ & Hboth).
  exists c. split.
  - exact Hrun.
  - apply Hboth; [reflexivity | reflexivity | discriminate | discriminate].
Defined.

(** C1 as stated fails: an empty global file next to a project file is
    present, yet no label is put before the project text. *)
Lemma loadConfiguration_presence_counterexample :
  exists c w',
    RooConfig.loadConfiguration
      (rules_host (Fulfilled EmptyString) (Fulfilled "project content"))
      "rules/rules.md" "/project/path" []
    = (Fulfilled c, w') /\
    RooConfig.global c = Some EmptyString /\
    RooConfig.project c = Some "project content" /\
    RooConfig.merged c = "project content" /\
    RooConfig.merged c <> merge_rule_as_stated (RooConfig.global c) (RooConfig.project c).
Proof.
  eexists. eexists. split; [reflexivity |].
  simpl. repeat split. discriminate.
Qed.

(** C2: a read that fails with ENOENT, ENOTDIR or EISDIR gives [null] for
    its source and is not raised; any other failure of the global read,
    or of the project read after it, rejects the whole call with that
    error, and then there is no result object at all. *)
Theorem loadConfiguration_read_failures
    {W : Type} (P : Platform W) (relativePath cwd : string) (w w1 : W)
    (rg : Settled string) :
  fs_readFile P (globalFilePath P relativePath) w = (rg, w1) ->
  (forall e, rg = Rejected e -> ~ benign e ->
     RooConfig.loadConfiguration P relativePath cwd w = (Rejected e, w1)) /\
  (expected rg ->
   forall rp w2,
     fs_readFile P (projectFilePath P relativePath cwd) w1 = (rp, w2) ->
     (forall e, rp = Rejected e -> ~ benign e ->
        RooConfig.loadConfiguration P relativePath cwd w = (Rejected e, w2)) /\
     (expected rp ->
      exists c,
        RooConfig.loadConfiguration P relativePath cwd w = (Fulfilled c, w2) /\
        RooConfig.global c = source_text rg /\
        RooConfig.project c = source_text rp /\
        (forall e, rg = Rejected e -> RooConfig.global c = None) /\
        (forall e, rp = Rejected e -> RooConfig.project c = None))).
Proof.
  intros Hg. split.
  - intros e -> Hne.
    apply loadConfiguration_global_rejected.
    apply readFileIfExists_unexpected; assumption.
  - intros Heg rp w2 Hp.
    pose proof (readFileIfExists_expected P _ _ _ _ Hg Heg) as Hg'.
    split.
    + intros e -> Hne.
      eapply loadConfiguration_project_rejected; [exact Hg' |].
      apply readFileIfExists_unexpected; assumption.
    + intros Hep.
      pose proof (readFileIfExists_expected P _ _ _ _ Hp Hep) as Hp'.
      eexists. split.
      * eapply loadConfiguration_fulfilled; [exact Hg' | exact Hp'].
      * simpl. repeat split; intros e ->; reflexivity.
Qed.

Lemma EACCES_unexpected : ~ benign Mock.EACCES.
Proof. intros [H | [H | H]]; discriminate H. Qed.

Lemma ENOENT_benign : benign Mock.ENOENT.
Proof. left. reflexivity. Qed.

(** The test "should propagate unexpected errors from project file read". *)
Lemma loadConfiguration_read_failures_witness :
  RooConfig.loadConfiguration
    (rules_host (Rejected Mock.ENOENT) (Rejected Mock.EACCES))
    "rules/rules.md" "/project/path" []
  = (Rejected Mock.EACCES,
     ["readFile /mock/home/.bitx/rules/rules.md";
      "readFile /project/path/.bitx/rules/rules.md"]).
Proof.
  destruct (loadConfiguration_read_failures
              (rules_host (Rejected Mock.ENOENT) (Rejected Mock.EACCES))
              "rules/rules.md" "/project/path" []
              ["readFile /mock/home/.bitx/rules/rules.md"]
              (Rejected Mock.ENOENT) eq_refl) as [_ Hproject].
  assert (Hg : expected (Rejected Mock.ENOENT)).
  { intros e He. injection He as <-. exact ENOENT_benign. }
  destruct (Hproject Hg (Rejected Mock.EACCES)
              ["readFile /mock/home/.bitx/rules/rules.md";
               "readFile /project/path/.bitx/rules/rules.md"] eq_refl)
    as [Hraise _].
  exact (Hraise Mock.EACCES eq_refl EACCES_unexpected).
Defined.

(** C10: the merge goes by truthiness of the texts.  An existing but empty
    global file gives [global = ""] and [merged] equal to the project
    text, with no label; an empty project file gives [merged] equal to
    the global text; two empty files give [merged = ""]. *)
Theorem loadConfiguration_merges_by_truthiness
    {W : Type} (P : Platform W) (relativePath cwd : string) (w w1 w2 : W)
    (tg tp : string) :
  fs_readFile P (globalFilePath P relativePath) w = (Fulfilled tg, w1) ->
  fs_readFile P (projectFilePath P relativePath cwd) w1 = (Fulfilled tp, w2) ->
  exists c,
    RooConfig.loadConfiguration P relativePath cwd w = (Fulfilled c, w2) /\
    RooConfig.global c = Some tg /\
    RooConfig.project c = Some tp /\
    (tg = EmptyString -> RooConfig.merged c = tp) /\
    (tp = EmptyString -> RooConfig.merged c = tg) /\
    (tg = EmptyString -> tp = EmptyString -> RooConfig.merged c = EmptyString).
Proof.
  intros Hg Hp. eexists. split.
  - eapply loadConfiguration_fulfilled; apply readFileIfExists_fulfilled; eassumption.
  - simpl. repeat split.
    + intros ->. apply merged_of_empty_global.
    + intros ->. apply merged_of_empty_project.
    + intros -> ->. reflexivity.
Qed.

Lemma loadConfiguration_merges_by_truthiness_witness :
  exists c,
    RooConfig.loadConfiguration
      (rules_host (Fulfilled EmptyString) (Fulfilled "project content"))
      "rules/rules.md" "/project/path" []
    = (Fulfilled c,
       ["readFile /mock/home/.bitx/rules/rules.md";
        "readFile /project/path/.bitx/rules/rules.md"]) /\
    RooConfig.global c = Some EmptyString /\
    RooConfig.merged c = "project content".
Proof.
  destruct (loadConfiguration_merges_by_truthiness
              (rules_host (Fulfilled EmptyString) (Fulfilled "project content"))
              "rules/rules.md" "/project/path" []
              ["readFile /mock/home/.bitx/rules/rules.md"]
              ["readFile /mock/home/.bitx/rules/rules.md";
               "readFile /project/path/.bitx/rules/rules.md"]
              EmptyString "project content" eq_refl eq_refl)
    as (c & Hrun & Hglobal & _ & Hmerged & _).
  exists c. repeat split.
  - exact Hrun.
  - exact Hglobal.
  - apply Hmerged. reflexivity.
Defined.

(** * Further properties of the configuration service *)

(** ** Existence tests *)

Lemma not_found_test (e : Error) :
  code_is e "ENOENT" || code_is e "ENOTDIR" = true <-> not_found e.
Proof.
  unfold not_found, code_is. destruct (code e) as [c |].
  - rewrite orb_true_iff, !String.eqb_eq. split; intros [H | H]; [left | right | left | right]; congruence.
  - split; [discriminate | intros [H | H]; discriminate].
Qed.

Lemma EISDIR_not_not_found : ~ not_found Mock.EISDIR.
Proof. intros [H | H]; discriminate H. Qed.

(** X1: [directoryExists] answers what [stat] says of the entry, answers
    [false] when [stat] fails with ENOENT or ENOTDIR, and rejects with the
    error of [stat] in every other case, EISDIR included. *)
Theorem directoryExists_by_stat
    {W : Type} (P : Platform W) (dirPath : string) (w w' : W) (r : Settled Stats) :
  fs_stat P dirPath w = (r, w') ->
  (forall st, r = Fulfilled st ->
     RooConfig.directoryExists P dirPath w = (Fulfilled (isDirectory st), w')) /\
  (forall e, r = Rejected e -> not_found e ->
     RooConfig.directoryExists P dirPath w = (Fulfilled false, w')) /\
  (forall e, r = Rejected e -> ~ not_found e ->
     RooConfig.directoryExists P dirPath w = (Rejected e, w')).
Proof.
  intros H. unfold RooConfig.directoryExists, try_catch, bind. rewrite H.
  repeat split.
  - intros st ->. reflexivity.
  - intros e -> Hnf. apply not_found_test in Hnf. rewrite Hnf. reflexivity.
  - intros e -> Hnf.
    destruct (code_is e "ENOENT" || code_is e "ENOTDIR") eqn:Ht.
    + apply not_found_test in Ht. contradiction.
    + reflexivity.
Qed.

Lemma directoryExists_by_stat_witness :
  RooConfig.directoryExists
    (Mock.platform "/mock/home" [("/is/a/directory", Rejected Mock.EISDIR)] []
       (Fulfilled []))
    "/is/a/directory" []
  = (Rejected Mock.EISDIR, ["stat /is/a/directory"]).
Proof.
  destruct (directoryExists_by_stat
              (Mock.platform "/mock/home" [("/is/a/directory", Rejected Mock.EISDIR)] []
                 (Fulfilled []))
              "/is/a/directory" [] ["stat /is/a/directory"]
              (Rejected Mock.EISDIR) eq_refl) as (_ & _ & Hraise).
  exact (Hraise Mock.EISDIR eq_refl EISDIR_not_not_found).
Defined.

(** X2: [fileExists] answers whether [stat] says the entry is a file,
    answers [false] when [stat] fails with ENOENT or ENOTDIR, and rejects
    with the error of [stat] in every other case. *)
Theorem fileExists_by_stat
    {W : Type} (P : Platform W) (filePath : string) (w w' : W) (r : Settled Stats) :
  fs_stat P filePath w = (r, w') ->
  (forall st, r = Fulfilled st ->
     RooConfig.fileExists P filePath w = (Fulfilled (isFile st), w')) /\
  (forall e, r = Rejected e -> not_found e ->
     RooConfig.fileExists P filePath w = (Fulfilled false, w')) /\
  (forall e, r = Rejected e -> ~ not_found e ->
     RooConfig.fileExists P filePath w = (Rejected e, w')).
Proof.
  intros H. unfold RooConfig.fileExists, try_catch, bind. rewrite H.
  repeat split.
  - intros st ->. reflexivity.
  - intros e -> Hnf. apply not_found_test in Hnf. rewrite Hnf. reflexivity.
  - intros e -> Hnf.
    destruct (code_is e "ENOENT" || code_is e "ENOTDIR") eqn:Ht.
    + apply not_found_test in Ht. contradiction.
    + reflexivity.
Qed.

Lemma fileExists_by_stat_witness :
  RooConfig.fileExists
    (Mock.platform "/mock/home" [("/not/a/directory/file.txt", Rejected Mock.ENOTDIR)] []
       (Fulfilled []))
    "/not/a/directory/file.txt" []
  = (Fulfilled false, ["stat /not/a/directory/file.txt"]).
Proof.
  destruct (fileExists_by_stat
              (Mock.platform "/mock/home"
                 [("/not/a/directory/file.txt", Rejected Mock.ENOTDIR)] []
                 (Fulfilled []))
              "/not/a/directory/file.txt" [] ["stat /not/a/directory/file.txt"]
              (Rejected Mock.ENOTDIR) eq_refl) as (_ & Habsent & _).
  apply (Habsent Mock.ENOTDIR eq_refl). right. reflexivity.
Defined.

(** X3: what [readFileIfExists] settles to tells what the read did: a
    rejection is the read's own and is not benign, [null] means the read
    failed with a benign error, and a text is the text that was read. *)
Theorem readFileIfExists_inversion
    {W : Type} (P : Platform W) (filePath : string) (w w' : W)
    (r : Settled (option string)) :
  RooConfig.readFileIfExists P filePath w = (r, w') ->
  (forall e, r = Rejected e ->
     fs_readFile P filePath w = (Rejected e, w') /\ ~ benign e) /\
  (r = Fulfilled None ->
     exists e, fs_readFile P filePath w = (Rejected e, w') /\ benign e) /\
  (forall t, r = Fulfilled (Some t) ->
     fs_readFile P filePath w = (Fulfilled t, w')).
Proof.
  unfold RooConfig.readFileIfExists, try_catch, bind.
  destruct (fs_readFile P filePath w) as [[t0 | e0] w0] eqn:Hread;
    [| destruct (code_is e0 "ENOENT" || code_is e0 "ENOTDIR" || code_is e0 "EISDIR") eqn:Ht];
    intros H; injection H as <- <-; (split; [| split]).
  - intros e He. discriminate He.
  - intros He. discriminate He.
  - intros t He. injection He as <-. reflexivity.
  - intros e He. discriminate He.
  - intros _. exists e0. split; [reflexivity | apply benign_test; exact Ht].
  - intros t He. discriminate He.
  - intros e He. injection He as <-. split; [reflexivity |].
    intros Hb. apply benign_test in Hb. congruence.
  - intros He. discriminate He.
  - intros t He. discriminate He.
Qed.

Lemma readFileIfExists_inversion_witness :
  exists e,
    fs_readFile (rules_host (Rejected Mock.EISDIR) (Fulfilled "project content"))
      "/mock/home/.bitx/rules/rules.md" []
    = (Rejected e, ["readFile /mock/home/.bitx/rules/rules.md"]) /\
    benign e.
Proof.
  destruct (readFileIfExists_inversion
              (rules_host (Rejected Mock.EISDIR) (Fulfilled "project content"))
              "/mock/home/.bitx/rules/rules.md" []
              ["readFile /mock/home/.bitx/rules/rules.md"]
              (Fulfilled None) eq_refl) as (_ & Hnull & _).
  exact (Hnull eq_refl).
Defined.

(** ** The regular expression of the discovery loop *)

Ltac next_marker_char t H :=
  let a := fresh "a" in
  destruct t as [| a t]; [discriminate H |];
  destruct a as [[] [] [] [] [] [] [] []]; try discriminate H.

Lemma starts_with_marker_inv (t : string) :
  starts_with_marker t = true -> marked_after EmptyString t.
Proof.
  intros H.
  destruct t as [| c0 t]; [discriminate H |].
  next_marker_char t H. next_marker_char t H. next_marker_char t H.
  next_marker_char t H. next_marker_char t H.
  destruct t as [| c1 rest]; [discriminate H |].
  simpl in H. apply andb_true_iff in H. destruct H as [H0 H1].
  exists c0, c1, rest. repeat split; assumption.
Qed.

Lemma starts_with_marker_intro (c0 c1 : ascii) (rest : string) :
  is_separator c0 = true -> is_separator c1 = true ->
  starts_with_marker (String c0 (".bitx" ++ String c1 rest)) = true.
Proof.
  intros H0 H1. simpl. rewrite H0, H1. reflexivity.
Qed.

Lemma marked_after_cons (c : ascii) (m s : string) :
  marked_after m s -> marked_after (String c m) (String c s).
Proof.
  intros (c0 & c1 & rest & H0 & H1 & ->).
  exists c0, c1, rest. repeat split; assumption.
Qed.

Lemma match_bitx_prefix_sound (s m : string) :
  match_bitx_prefix s = Some m ->
  m <> EmptyString /\ no_line_terminator m = true /\ marked_after m s.
Proof.
  revert m. induction s as [| c rest IH]; intros m; simpl.
  - discriminate.
  - destruct (is_line_terminator c) eqn:Hlt; [discriminate |].
    destruct (starts_with_marker rest) eqn:Hm.
    + intros H. injection H as <-. repeat split.
      * discriminate.
      * simpl. rewrite Hlt. reflexivity.
      * apply marked_after_cons, starts_with_marker_inv, Hm.
    + destruct (match_bitx_prefix rest) as [m0 |]; [| discriminate].
      intros H. injection H as <-.
      destruct (IH m0 eq_refl) as (_ & Hnl & Hafter).
      repeat split.
      * discriminate.
      * simpl. rewrite Hlt, Hnl. reflexivity.
      * apply marked_after_cons, Hafter.
Qed.

Lemma match_bitx_prefix_shortest (s m : string) :
  match_bitx_prefix s = Some m ->
  forall m' t,
    s = (m' ++ t)%string -> m' <> EmptyString ->
    String.length m' < String.length m ->
    starts_with_marker t = false.
Proof.
  revert m. induction s as [| c rest IH]; intros m; simpl.
  - discriminate.
  - destruct (is_line_terminator c); [discriminate |].
    destruct (starts_with_marker rest) eqn:Hm.
    + intros H. injection H as <-. intros m' t _ Hne Hlen.
      destruct m'; [contradiction | simpl in Hlen; lia].
    + destruct (match_bitx_prefix rest) as [m0 |] eqn:Hrest; [| discriminate].
      intros H. injection H as <-. intros m' t Hs Hne Hlen.
      destruct m' as [| c' m'']; [contradiction |].
      simpl in Hs. injection Hs as _ Hrest'.
      destruct m'' as [| c'' m'''].
      * simpl in Hrest'. subst rest. exact Hm.
      * apply (IH m0 eq_refl (String c'' m''') t Hrest'); [discriminate |].
        simpl in *. lia.
Qed.

Lemma match_bitx_prefix_complete (m t : string) :
  m <> EmptyString -> no_line_terminator m = true -> starts_with_marker t = true ->
  exists m', match_bitx_prefix (m ++ t) = Some m'.
Proof.
  induction m as [| c m IH]; intros Hne Hnl Ht; [contradiction |].
  simpl in Hnl. apply andb_true_iff in Hnl. destruct Hnl as [Hc Hnl].
  apply negb_true_iff in Hc.
  simpl. rewrite Hc.
  destruct (starts_with_marker (m ++ t)) eqn:Hm; [eauto |].
  destruct m as [| c' m'].
  - simpl in Hm. congruence.
  - destruct (IH ltac:(discriminate) Hnl Ht) as [m0 H0].
    rewrite H0. simpl. eauto.
Qed.

(** X4: when the regular expression matches, its capture group is not
    empty, holds no line terminator, is followed in the path by a
    separator, [.bitx] and a separator, and is the shortest non-empty
    prefix that is so followed. *)
Theorem match_bitx_prefix_capture (s m : string) :
  match_bitx_prefix s = Some m ->
  m <> EmptyString /\
  no_line_terminator m = true /\
  marked_after m s /\
  (forall m' t,
     s = (m' ++ t)%string -> m' <> EmptyString ->
     String.length m' < String.length m ->
     starts_with_marker t = false).
Proof.
  intros H. destruct (match_bitx_prefix_sound s m H) as (Hne & Hnl & Hafter).
  repeat split; try assumption.
  apply match_bitx_prefix_shortest, H.
Qed.

Lemma match_bitx_prefix_capture_witness :
  marked_after "packages/core" "packages/core/.bitx/rules/rule.md".
Proof.
  destruct (match_bitx_prefix_capture "packages/core/.bitx/rules/rule.md"
              "packages/core" eq_refl) as (_ & _ & Hafter & _).
  exact Hafter.
Defined.

(** X5: the regular expression matches a path exactly when some
    non-empty prefix without line terminator is followed by a separator,
    [.bitx] and a separator; in particular a path that starts with
    [.bitx] and has no later marker has no match. *)
Theorem match_bitx_prefix_matches_iff (s : string) :
  (exists m, match_bitx_prefix s = Some m) <->
  (exists m, m <> EmptyString /\ no_line_terminator m = true /\ marked_after m s).
Proof.
  split.
  - intros [m H]. exists m. apply match_bitx_prefix_sound, H.
  - intros (m & Hne & Hnl & c0 & c1 & rest & H0 & H1 & ->).
    apply match_bitx_prefix_complete; try assumption.
    apply starts_with_marker_intro; assumption.
Qed.

(** ** What discovery finds *)

Lemma Set_add_In_iff (s : StringSet) (x y : string) :
  In y (Set_add s x) <-> y = x \/ In y s.
Proof.
  split; [apply Set_add_In |].
  unfold Set_add. destruct (Set_has s x) eqn:Hhas.
  - intros [-> | H]; [apply Set_has_In, Hhas | exact H].
  - rewrite in_app_iff. simpl. intuition.
Qed.

Lemma Set_add_length (s : StringSet) (x : string) :
  List.length (Set_add s x) <= S (List.length s).
Proof.
  unfold Set_add. destruct (Set_has s x).
  - lia.
  - rewrite length_app. simpl. lia.
Qed.

Section DiscoveryFacts.

Context {W : Type} (P : Platform W).

Lemma collect_rooDir_In (cwd root : string) (s : StringSet) (r : FileResult) (d : string) :
  In d (RooConfig.collect_rooDir P cwd root s r) <->
  In d s \/ candidate_of P cwd root [r] d.
Proof.
  unfold RooConfig.collect_rooDir, candidate_of.
  destruct (match_bitx_prefix (path r)) as [m1 |] eqn:Hm.
  - cbv zeta.
    destruct (String.eqb (path_join P [cwd; m1; ".bitx"]) root) eqn:Heq; simpl negb; cbv iota.
    + apply String.eqb_eq in Heq. split; [auto |].
      intros [H | (r' & m' & [<- | []] & Hm' & Hd & Hne)]; [exact H |].
      rewrite Hm in Hm'. injection Hm' as <-. congruence.
    + apply String.eqb_neq in Heq. rewrite Set_add_In_iff. split.
      * intros [-> | H]; [right | left; exact H].
        exists r, m1. repeat split; auto. left. reflexivity.
      * intros [H | (r' & m' & [<- | []] & Hm' & Hd & Hne)]; [right; exact H |].
        rewrite Hm in Hm'. injection Hm' as <-. left. exact Hd.
  - split; [auto |].
    intros [H | (r' & m' & [<- | []] & Hm' & _)]; [exact H | congruence].
Qed.

Lemma candidate_of_cons (cwd root : string) (r : FileResult) (rs : list FileResult)
    (d : string) :
  candidate_of P cwd root (r :: rs) d <->
  candidate_of P cwd root [r] d \/ candidate_of P cwd root rs d.
Proof.
  unfold candidate_of. split.
  - intros (r' & m1 & [<- | Hin] & H).
    + left. exists r, m1. split; [left; reflexivity | exact H].
    + right. exists r', m1. split; assumption.
  - intros [(r' & m1 & [<- | []] & H) | (r' & m1 & Hin & H)].
    + exists r, m1. split; [left; reflexivity | exact H].
    + exists r', m1. split; [right; exact Hin | exact H].
Qed.

Lemma collect_all_In (cwd root : string) (rs : list FileResult) (s : StringSet) (d : string) :
  In d (fold_left (RooConfig.collect_rooDir P cwd root) rs s) <->
  In d s \/ candidate_of P cwd root rs d.
Proof.
  revert s. induction rs as [| r rs IH]; intros s; simpl.
  - split; [auto |]. intros [H | (r & m1 & [] & _)]. exact H.
  - rewrite IH, collect_rooDir_In, (candidate_of_cons cwd root r rs d). tauto.
Qed.

Lemma collect_all_length (cwd root : string) (rs : list FileResult) (s : StringSet) :
  List.length (fold_left (RooConfig.collect_rooDir P cwd root) rs s)
  <= List.length s + List.length rs.
Proof.
  revert s. induction rs as [| r rs IH]; intros s; simpl.
  - lia.
  - eapply Nat.le_trans; [apply IH |].
    assert (List.length (RooConfig.collect_rooDir P cwd root s r) <= S (List.length s)).
    { unfold RooConfig.collect_rooDir.
      destruct (match_bitx_prefix (path r)); [| lia].
      cbv zeta. destruct (negb _); [apply Set_add_length | lia]. }
    lia.
Qed.

(** The list a successful search is turned into. *)
Lemma discover_fulfilled (cwd : string) (w w0 w' : W) (results : list FileResult) :
  import_file_search P w = (Fulfilled tt, w0) ->
  executeRipgrep P (RooConfig.ripgrep_args cwd) cwd w0 = (Fulfilled results, w') ->
  RooConfig.discoverSubfolderRooDirectories P cwd w =
    (Fulfilled
       (Array_sort
          (fold_left
             (RooConfig.collect_rooDir P cwd (RooConfig.getProjectRooDirectoryForCwd P cwd))
             results Set_new)), w').
Proof.
  intros Himp Hrg.
  unfold RooConfig.discoverSubfolderRooDirectories, try_catch, bind.
  rewrite Himp, Hrg. reflexivity.
Qed.

End DiscoveryFacts.

(** X6: when the search succeeds, the discovered list holds exactly the
    directories [path.join(cwd, m, ".bitx")], for [m] the capture group
    of some result path, that differ from the root configuration
    directory. *)
Theorem discover_finds_exactly_the_candidates
    {W : Type} (P : Platform W) (cwd : string) (w w0 w' : W)
    (results : list FileResult) :
  import_file_search P w = (Fulfilled tt, w0) ->
  executeRipgrep P (RooConfig.ripgrep_args cwd) cwd w0 = (Fulfilled results, w') ->
  exists dirs,
    RooConfig.discoverSubfolderRooDirectories P cwd w = (Fulfilled dirs, w') /\
    forall d,
      In d dirs <->
      candidate_of P cwd (RooConfig.getProjectRooDirectoryForCwd P cwd) results d.
Proof.
  intros Himp Hrg. eexists. split.
  - apply (discover_fulfilled P cwd w w0 w' results Himp Hrg).
  - intros d. split.
    + intros Hin.
      apply (Permutation_in _ (Permutation_sym (Array_sort_Permutation _))) in Hin.
      apply collect_all_In in Hin. destruct Hin as [[] | H]. exact H.
    + intros H.
      apply (Permutation_in _ (Array_sort_Permutation _)).
      apply collect_all_In. right. exact H.
Qed.

Lemma discover_finds_exactly_the_candidates_witness :
  exists dirs,
    RooConfig.discoverSubfolderRooDirectories nested_search "/project/path" []
    = (Fulfilled dirs, ["rg /project/path"]) /\
    In "/project/path/packages/utils/.bitx" dirs.
Proof.
  destruct (discover_finds_exactly_the_candidates nested_search "/project/path"
              [] [] ["rg /project/path"]
              [Mock.file "packages/core/.bitx/rules/rule.md";
               Mock.file "packages/utils/.bitx/rules-code/rule.md"]
              eq_refl eq_refl) as (dirs & Hrun & Hin).
  exists dirs. split; [exact Hrun |].
  apply Hin.
  exists (Mock.file "packages/utils/.bitx/rules-code/rule.md"), "packages/utils".
  repeat split.
  - right. left. reflexivity.
  - discriminate.
Defined.

(** ** Discovery does not depend on the order of the search results *)

Lemma str_lt_irrefl (a : string) : ~ str_lt a a.
Proof. apply (StrictOrder_Irreflexive (R := String_as_OT.lt)). Qed.

Lemma str_lt_trans (a b c : string) : str_lt a b -> str_lt b c -> str_lt a c.
Proof. apply (StrictOrder_Transitive (R := String_as_OT.lt)). Qed.

Lemma ascending_same_members (l1 l2 : list string) :
  StronglySorted str_lt l1 -> StronglySorted str_lt l2 ->
  (forall x, In x l1 <-> In x l2) ->
  l1 = l2.
Proof.
  intros H1. revert l2. induction H1 as [| a1 l1 Hs1 IH Hall1]; intros l2 H2 Hmem.
  - destruct l2 as [| a2 l2]; [reflexivity |].
    exfalso. apply (proj2 (Hmem a2)). left. reflexivity.
  - destruct H2 as [| a2 l2 Hs2 Hall2].
    + exfalso. apply (proj1 (Hmem a1)). left. reflexivity.
    + rewrite Forall_forall in Hall1, Hall2.
      assert (Heq : a1 = a2).
      { destruct (proj1 (Hmem a1) (or_introl eq_refl)) as [E | Hin1]; [congruence |].
        destruct (proj2 (Hmem a2) (or_introl eq_refl)) as [E | Hin2]; [congruence |].
        exfalso. apply (str_lt_irrefl a1).
        apply str_lt_trans with a2; [apply Hall1, Hin2 | apply Hall2, Hin1]. }
      subst a2. f_equal. apply IH; [exact Hs2 |].
      intros x. split; intros Hx.
      * destruct (proj1 (Hmem x) (or_intror Hx)) as [E | Hin]; [| exact Hin].
        subst x. exfalso. apply (str_lt_irrefl a1), Hall1, Hx.
      * destruct (proj2 (Hmem x) (or_intror Hx)) as [E | Hin]; [| exact Hin].
        subst x. exfalso. apply (str_lt_irrefl a1), Hall2, Hx.
Qed.

Lemma candidate_of_same_paths {W : Type} (P : Platform W) (cwd root : string)
    (rs1 rs2 : list FileResult) (d : string) :
  (forall p, In p (map path rs1) -> In p (map path rs2)) ->
  candidate_of P cwd root rs1 d -> candidate_of P cwd root rs2 d.
Proof.
  intros Hsub (r & m1 & Hin & Hm & Hd & Hne).
  assert (Hp : In (path r) (map path rs2)) by (apply Hsub, in_map, Hin).
  apply in_map_iff in Hp. destruct Hp as (r2 & Hpath & Hin2).
  exists r2, m1. rewrite Hpath. repeat split; assumption.
Qed.

(** X7: two successful searches that report the same set of paths, in
    any order and with any repetition, give the same discovered list. *)
Theorem discover_ignores_order_and_repetition
    {W : Type} (P : Platform W) (cwd : string) (w1 w1' w1'' w2 w2' w2'' : W)
    (rs1 rs2 : list FileResult) :
  import_file_search P w1 = (Fulfilled tt, w1') ->
  executeRipgrep P (RooConfig.ripgrep_args cwd) cwd w1' = (Fulfilled rs1, w1'') ->
  import_file_search P w2 = (Fulfilled tt, w2') ->
  executeRipgrep P (RooConfig.ripgrep_args cwd) cwd w2' = (Fulfilled rs2, w2'') ->
  (forall p, In p (map path rs1) <-> In p (map path rs2)) ->
  fst (RooConfig.discoverSubfolderRooDirectories P cwd w1) =
  fst (RooConfig.discoverSubfolderRooDirectories P cwd w2).
Proof.
  intros Hi1 Hr1 Hi2 Hr2 Hsame.
  rewrite (discover_fulfilled P cwd w1 w1' w1'' rs1 Hi1 Hr1).
  rewrite (discover_fulfilled P cwd w2 w2' w2'' rs2 Hi2 Hr2).
  simpl. f_equal.
  set (root := RooConfig.getProjectRooDirectoryForCwd P cwd).
  assert (Hok : forall rs,
             NoDup (fold_left (RooConfig.collect_rooDir P cwd root) rs Set_new)).
  { intros rs. apply collect_all_ok. split; [constructor | intros []]. }
  apply ascending_same_members.
  - apply Array_sort_strict, Hok.
  - apply Array_sort_strict, Hok.
  - intros d. split; intros Hin.
    + apply (Permutation_in _ (Array_sort_Permutation _)).
      apply (Permutation_in _ (Permutation_sym (Array_sort_Permutation _))) in Hin.
      apply collect_all_In. apply collect_all_In in Hin.
      destruct Hin as [[] | H]. right.
      apply (candidate_of_same_paths P cwd root rs1 rs2); [| exact H].
      intros p. apply Hsame.
    + apply (Permutation_in _ (Array_sort_Permutation _)).
      apply (Permutation_in _ (Permutation_sym (Array_sort_Permutation _))) in Hin.
      apply collect_all_In. apply collect_all_In in Hin.
      destruct Hin as [[] | H]. right.
      apply (candidate_of_same_paths P cwd root rs2 rs1); [| exact H].
      intros p. apply Hsame.
Qed.

Lemma discover_ignores_order_and_repetition_witness :
  fst (RooConfig.discoverSubfolderRooDirectories reordering_search "/project/path" [])
  = fst (RooConfig.discoverSubfolderRooDirectories reordering_search "/project/path"
           ["rg /project/path"]).
Proof.
  apply (discover_ignores_order_and_repetition reordering_search "/project/path"
           [] [] ["rg /project/path"]
           ["rg /project/path"] ["rg /project/path"]
           ["rg /project/path"; "rg /project/path"]
           [Mock.file "zebra/.bitx/rules/rule.md";
            Mock.file "apple/.bitx/rules/rule.md";
            Mock.file "mango/.bitx/rules/rule.md"]
           [Mock.file "mango/.bitx/rules/rule.md";
            Mock.file "apple/.bitx/rules/rule.md";
            Mock.file "zebra/.bitx/rules/rule.md";
            Mock.file "zebra/.bitx/rules/rule.md"]);
    try reflexivity.
  intros p. simpl. tauto.
Defined.

(** X8: the discovered list is never longer than the list of search
    results. *)
Theorem discover_at_most_one_per_result
    {W : Type} (P : Platform W) (cwd : string) (w w0 w' : W)
    (results : list FileResult) :
  import_file_search P w = (Fulfilled tt, w0) ->
  executeRipgrep P (RooConfig.ripgrep_args cwd) cwd w0 = (Fulfilled results, w') ->
  exists dirs,
    RooConfig.discoverSubfolderRooDirectories P cwd w = (Fulfilled dirs, w') /\
    List.length dirs <= List.length results.
Proof.
  intros Himp Hrg. eexists. split.
  - apply (discover_fulfilled P cwd w w0 w' results Himp Hrg).
  - rewrite <- (Permutation_length (Array_sort_Permutation _)).
    apply (collect_all_length P cwd _ results Set_new).
Qed.

Lemma discover_at_most_one_per_result_witness :
  exists dirs,
    RooConfig.discoverSubfolderRooDirectories nested_search "/project/path" []
    = (Fulfilled dirs, ["rg /project/path"]) /\
    List.length dirs <= 2.
Proof.
  apply (discover_at_most_one_per_result nested_search "/project/path"
           [] [] ["rg /project/path"]
           [Mock.file "packages/core/.bitx/rules/rule.md";
            Mock.file "packages/utils/.bitx/rules-code/rule.md"]);
    reflexivity.
Defined.

(** X9: when the enumerator fails, [getAllRooDirectoriesForCwd] still
    resolves, to the two directories of [getRooDirectoriesForCwd], and
    [getAgentsDirectoriesForCwd] resolves to the root alone. *)
Theorem directories_degrade_without_search
    {W : Type} (P : Platform W) (cwd : string) (w : W) (e : Error) (w' : W) :
  enumerator_fails P cwd w e w' ->
  RooConfig.getAllRooDirectoriesForCwd P cwd w =
    (Fulfilled (RooConfig.getRooDirectoriesForCwd P cwd), w') /\
  RooConfig.getAgentsDirectoriesForCwd P cwd w = (Fulfilled [cwd], w').
Proof.
  intros Hfail.
  assert (Hd : RooConfig.discoverSubfolderRooDirectories P cwd w = (Fulfilled [], w')).
  { unfold RooConfig.discoverSubfolderRooDirectories, try_catch, bind.
    destruct Hfail as [Himp | (w0 & Himp & Hrg)]; rewrite Himp;
      [| rewrite Hrg]; reflexivity. }
  unfold RooConfig.getAllRooDirectoriesForCwd, RooConfig.getAgentsDirectoriesForCwd, bind.
  rewrite Hd. split; reflexivity.
Qed.

Lemma directories_degrade_without_search_witness :
  RooConfig.getAllRooDirectoriesForCwd failing_search "/project/path" []
  = (Fulfilled ["/mock/home/.bitx"; "/project/path/.bitx"], ["rg /project/path"]).
Proof.
  destruct (directories_degrade_without_search failing_search "/project/path" []
              {| code := None; message := "ripgrep failed" |} ["rg /project/path"])
    as [Hall _].
  - right. exists []. split; reflexivity.
  - exact Hall.
Defined.

(** ** The merged text in closed form *)

Lemma append_empty_r (a : string) : (a ++ EmptyString)%string = a.
Proof. induction a as [| x a IH]; simpl; [reflexivity | rewrite IH; reflexivity]. Qed.

Lemma merged_of_closed_form (g p : option string) :
  merged_of g p = (text_of g ++ separator_between g p ++ text_of p)%string.
Proof.
  destruct g as [[| a tg] |], p as [[| b tp] |]; try reflexivity.
  - unfold merged_of, separator_between. simpl. rewrite append_empty_r. reflexivity.
  - apply merged_of_both; discriminate.
  - unfold merged_of, separator_between. simpl. rewrite append_empty_r. reflexivity.
Qed.

Lemma merged_of_empty_iff (g p : option string) :
  merged_of g p = EmptyString <-> truthy g = false /\ truthy p = false.
Proof.
  rewrite merged_of_closed_form.
  destruct g as [[| a tg] |], p as [[| b tp] |]; simpl;
    split; try (intros [H1 H2]); try intros H; try discriminate; auto.
Qed.

(** X10: whenever both reads settle without an unexpected error, [merged]
    is the global text, then the label if and only if both texts are
    non-empty, then the project text; the global text is kept at the
    front and the project text at the end. *)
Theorem loadConfiguration_merged_closed_form
    {W : Type} (P : Platform W) (relativePath cwd : string) (w w1 w2 : W)
    (g p : option string) :
  RooConfig.readFileIfExists P (globalFilePath P relativePath) w = (Fulfilled g, w1) ->
  RooConfig.readFileIfExists P (projectFilePath P relativePath cwd) w1 = (Fulfilled p, w2) ->
  exists c,
    RooConfig.loadConfiguration P relativePath cwd w = (Fulfilled c, w2) /\
    RooConfig.merged c = (text_of g ++ separator_between g p ++ text_of p)%string /\
    (separator_between g p = RooConfig.override_label <->
     truthy g = true /\ truthy p = true).
Proof.
  intros Hg Hp. eexists. split.
  - eapply loadConfiguration_fulfilled; eassumption.
  - simpl. split; [apply merged_of_closed_form |].
    unfold separator_between.
    destruct (truthy g), (truthy p); simpl; split;
      try (intros [H1 H2]); try intros H; try discriminate; auto.
Qed.

Lemma loadConfiguration_merged_closed_form_witness :
  exists c,
    RooConfig.loadConfiguration
      (rules_host (Fulfilled "global content") (Rejected Mock.ENOENT))
      "rules/rules.md" "/project/path" []
    = (Fulfilled c,
       ["readFile /mock/home/.bitx/rules/rules.md";
        "readFile /project/path/.bitx/rules/rules.md"]) /\
    RooConfig.merged c = ("global content" ++ EmptyString ++ EmptyString)%string.
Proof.
  destruct (loadConfiguration_merged_closed_form
              (rules_host (Fulfilled "global content") (Rejected Mock.ENOENT))
              "rules/rules.md" "/project/path" []
              ["readFile /mock/home/.bitx/rules/rules.md"]
              ["readFile /mock/home/.bitx/rules/rules.md";
               "readFile /project/path/.bitx/rules/rules.md"]
              (Some "global content") None eq_refl eq_refl)
    as (c & Hrun & Hmerged & _).
  exists c. split; [exact Hrun | exact Hmerged].
Defined.

(** X11: [merged] is the empty string exactly when each source is absent
    or empty. *)
Theorem loadConfiguration_merged_empty_iff
    {W : Type} (P : Platform W) (relativePath cwd : string) (w w1 w2 : W)
    (g p : option string) :
  RooConfig.readFileIfExists P (globalFilePath P relativePath) w = (Fulfilled g, w1) ->
  RooConfig.readFileIfExists P (projectFilePath P relativePath cwd) w1 = (Fulfilled p, w2) ->
  exists c,
    RooConfig.loadConfiguration P relativePath cwd w = (Fulfilled c, w2) /\
    (RooConfig.merged c = EmptyString <->
     (g = None \/ g = Some EmptyString) /\ (p = None \/ p = Some EmptyString)).
Proof.
  intros Hg Hp. eexists. split.
  - eapply loadConfiguration_fulfilled; eassumption.
  - simpl. rewrite merged_of_empty_iff.
    destruct g as [[| a tg] |], p as [[| b tp] |]; simpl;
      split; intros [H1 H2]; split; auto; try discriminate;
      try (destruct H1 as [H1 | H1]; discriminate H1);
      try (destruct H2 as [H2 | H2]; discriminate H2).
Qed.

Lemma loadConfiguration_merged_empty_iff_witness :
  exists c,
    RooConfig.loadConfiguration
      (rules_host (Fulfilled EmptyString) (Rejected Mock.ENOTDIR))
      "rules/rules.md" "/project/path" []
    = (Fulfilled c,
       ["readFile /mock/home/.bitx/rules/rules.md";
        "readFile /project/path/.bitx/rules/rules.md"]) /\
    RooConfig.merged c = EmptyString.
Proof.
  destruct (loadConfiguration_merged_empty_iff
              (rules_host (Fulfilled EmptyString) (Rejected Mock.ENOTDIR))
              "rules/rules.md" "/project/path" []
              ["readFile /mock/home/.bitx/rules/rules.md"]
              ["readFile /mock/home/.bitx/rules/rules.md";
               "readFile /project/path/.bitx/rules/rules.md"]
              (Some EmptyString) None eq_refl eq_refl)
    as (c & Hrun & Hempty).
  exists c. split; [exact Hrun |].
  apply Hempty. split; [right | left]; reflexivity.
Defined.

(** ** A workspace that is the home directory *)

(** X18: when the workspace root is the home directory, the global and
    the project directory are one directory and [loadConfiguration] reads
    the same file twice: a non-empty text that both reads return appears
    twice in [merged], before and after the label. *)
Theorem loadConfiguration_in_home_reads_twice
    {W : Type} (P : Platform W) (relativePath cwd : string) (w w1 w2 : W) (t : string) :
  os_homedir P = cwd ->
  fs_readFile P (globalFilePath P relativePath) w = (Fulfilled t, w1) ->
  fs_readFile P (globalFilePath P relativePath) w1 = (Fulfilled t, w2) ->
  t <> EmptyString ->
  RooConfig.getRooDirectoriesForCwd P cwd =
    [RooConfig.getGlobalRooDirectory P; RooConfig.getGlobalRooDirectory P] /\
  RooConfig.loadConfiguration P relativePath cwd w =
    (Fulfilled {| RooConfig.global := Some t;
                  RooConfig.project := Some t;
                  RooConfig.merged := (t ++ RooConfig.override_label ++ t)%string |}, w2).
Proof.
  intros Hhome Hg Hp Ht.
  assert (Hdir : RooConfig.getProjectRooDirectoryForCwd P cwd = RooConfig.getGlobalRooDirectory P).
  { unfold RooConfig.getProjectRooDirectoryForCwd, RooConfig.getGlobalRooDirectory.
    rewrite Hhome. reflexivity. }
  split.
  - unfold RooConfig.getRooDirectoriesForCwd. rewrite Hdir. reflexivity.
  - rewrite (loadConfiguration_fulfilled P relativePath cwd w w1 w2 (Some t) (Some t)).
    + rewrite merged_of_both by assumption. reflexivity.
    + apply readFileIfExists_fulfilled, Hg.
    + unfold projectFilePath. rewrite Hdir.
      apply readFileIfExists_fulfilled, Hp.
Qed.

Lemma loadConfiguration_in_home_reads_twice_witness :
  RooConfig.loadConfiguration home_workspace "rules/rules.md" "/mock/home" []
  = (Fulfilled {| RooConfig.global := Some "rules";
                  RooConfig.project := Some "rules";
                  RooConfig.merged := ("rules" ++ RooConfig.override_label ++ "rules")%string |},
     ["readFile /mock/home/.bitx/rules/rules.md";
      "readFile /mock/home/.bitx/rules/rules.md"]).
Proof.
  apply (loadConfiguration_in_home_reads_twice home_workspace "rules/rules.md"
           "/mock/home" [] ["readFile /mock/home/.bitx/rules/rules.md"]).
  - reflexivity.
  - reflexivity.
  - reflexivity.
  - discriminate.
Defined.

(** * Properties of the user agent *)

(** X12: [getUserAgent] always answers [Bitx], a space and a non-empty
    version: the declared version when the context, its extension, its
    manifest and a non-empty version are all there, and [unknown] as
    soon as one of them is missing or the version is the empty string. *)
Theorem getUserAgent_version_or_unknown (context : option CloudUtils.ExtensionContext) :
  (exists v, CloudUtils.getUserAgent context = ("Bitx " ++ v)%string /\ v <> EmptyString) /\
  (forall c e m v,
     context = Some c -> CloudUtils.extension c = Some e ->
     CloudUtils.packageJSON e = Some m -> CloudUtils.version m = Some v ->
     v <> EmptyString ->
     CloudUtils.getUserAgent context = ("Bitx " ++ v)%string) /\
  (context = None \/
   (exists c, context = Some c /\
      (CloudUtils.extension c = None \/
       exists e, CloudUtils.extension c = Some e /\
         (CloudUtils.packageJSON e = None \/
          exists m, CloudUtils.packageJSON e = Some m /\
            (CloudUtils.version m = None \/ CloudUtils.version m = Some EmptyString)))) ->
   CloudUtils.getUserAgent context = "Bitx unknown").
Proof.
  unfold CloudUtils.getUserAgent, CloudUtils.or_else, CloudUtils.chain.
  split; [| split].
  - destruct context as [[ext] |]; [destruct ext as [[pj] |] |];
      [destruct pj as [[ver] |] | |]; [destruct ver as [[| a v] |] | | |];
      simpl; eexists; (split; [reflexivity | discriminate]).
  - intros c e m v -> He Hm Hv Hne. simpl. rewrite He, Hm, Hv.
    destruct v; [contradiction | reflexivity].
  - intros [-> | (c & -> & [He | (e & He & [Hm | (m & Hm & [Hv | Hv])])])];
      simpl; try rewrite He; try rewrite Hm; try rewrite Hv; reflexivity.
Qed.

(** * Properties of the write-protection classifier *)

Import RooProtectedController.

(** ** Normalisation and segments *)

Lemma toPosix_app (a b : string) : toPosix (a ++ b) = (toPosix a ++ toPosix b)%string.
Proof. induction a as [| c a IH]; simpl; [reflexivity | rewrite IH; reflexivity]. Qed.

Lemma split_slash_nonempty (s : string) : Posix.split_slash s <> [].
Proof.
  destruct s as [| c s]; simpl; [discriminate |].
  destruct (Ascii.eqb c Posix.slash); [discriminate |].
  destruct (Posix.split_slash s); discriminate.
Qed.

Lemma split_slash_app (a b : string) :
  Posix.split_slash (a ++ String Posix.slash b) = Posix.split_slash a ++ Posix.split_slash b.
Proof.
  induction a as [| c a IH]; simpl.
  - reflexivity.
  - destruct (Ascii.eqb c Posix.slash).
    + rewrite IH. reflexivity.
    + rewrite IH.
      destruct (Posix.split_slash a) as [| h t] eqn:Ha.
      * exfalso. exact (split_slash_nonempty a Ha).
      * reflexivity.
Qed.

Lemma path_segments_app (a b : string) :
  path_segments (a ++ String Posix.slash b) = path_segments a ++ path_segments b.
Proof. unfold path_segments. rewrite split_slash_app. apply filter_app. Qed.

Lemma strip_prefix_app (l r : list string) : strip_prefix l (l ++ r) = Some r.
Proof.
  induction l as [| x l IH]; simpl; [reflexivity |].
  rewrite String.eqb_refl. exact IH.
Qed.

Lemma toPosix_separator_free (s : string) : separator_free s = true -> toPosix s = s.
Proof.
  induction s as [| c s IH]; simpl; [reflexivity |].
  intros H. apply andb_true_iff in H. destruct H as [Hc Hs].
  rewrite IH by assumption.
  unfold is_separator in Hc. apply negb_true_iff, orb_false_iff in Hc.
  destruct Hc as [_ Hb]. rewrite Hb. reflexivity.
Qed.

Lemma split_separator_free (s : string) :
  separator_free s = true -> Posix.split_slash s = [s].
Proof.
  induction s as [| c s IH]; simpl; [reflexivity |].
  intros H. apply andb_true_iff in H. destruct H as [Hc Hs].
  rewrite IH by assumption.
  unfold is_separator in Hc. apply negb_true_iff, orb_false_iff in Hc.
  destruct Hc as [Ha _]. unfold Posix.slash. rewrite Ha. reflexivity.
Qed.

Lemma separator_free_app (a b : string) :
  separator_free (a ++ b) = separator_free a && separator_free b.
Proof.
  induction a as [| c a IH]; simpl; [reflexivity |].
  rewrite IH. apply andb_assoc.
Qed.

(** A relative path is classified on its own segments. *)
Lemma relative_segments_relative (cwd p : string) :
  isAbsolute (toPosix p) = false ->
  relative_segments cwd (toPosix p) = path_segments (toPosix p).
Proof. intros H. unfold relative_segments. rewrite H. reflexivity. Qed.

(** The segments of [w + "/" + p], once normalised. *)
Lemma path_segments_under (w p : string) :
  path_segments (toPosix (w ++ "/" ++ p)) =
  path_segments (toPosix w) ++ path_segments (toPosix p).
Proof.
  rewrite toPosix_app. simpl toPosix.
  change (String "/" (toPosix p)) with (String Posix.slash (toPosix p)).
  apply path_segments_app.
Qed.

(** A name is its own single segment and is not absolute. *)
Lemma isWriteProtected_name (cwd x : string) :
  separator_free x = true -> x <> EmptyString ->
  isWriteProtected cwd x = existsb (fun c => matches c [x]) compiled_patterns.
Proof.
  intros Hs Hx. unfold isWriteProtected, relative_segments, path_segments.
  rewrite (toPosix_separator_free x) by assumption.
  rewrite (split_separator_free x) by assumption.
  destruct x as [| c x]; [contradiction |].
  simpl in Hs. apply andb_true_iff in Hs. destruct Hs as [Hc _].
  unfold is_separator in Hc. apply negb_true_iff, orb_false_iff in Hc.
  destruct Hc as [Ha _].
  unfold isAbsolute, Posix.starts_with_slash, Posix.slash. rewrite Ha.
  reflexivity.
Qed.

(** ** Matching at any depth *)

Lemma match_tail_app (segs : list Segment) (l r : list string) :
  existsb (match_segments segs) (tails r) = true ->
  existsb (match_segments segs) (tails (l ++ r)) = true.
Proof.
  intros H. induction l as [| x l IH]; simpl.
  - exact H.
  - rewrite IH. apply orb_true_r.
Qed.

Lemma match_last_literal (name : string) (segs : list string) :
  last segs EmptyString = name -> name <> EmptyString ->
  existsb (match_segments [Literal name]) (tails segs) = true.
Proof.
  intros Hlast Hname. induction segs as [| x segs IH].
  - simpl in Hlast. congruence.
  - destruct segs as [| y segs].
    + simpl in *. subst x. rewrite String.eqb_refl. reflexivity.
    + change (tails (x :: y :: segs)) with ((x :: y :: segs) :: tails (y :: segs)).
      cbn [existsb]. rewrite IH by exact Hlast. apply orb_true_r.
Qed.

Lemma protected_by (cwd p pattern : string) :
  In pattern PROTECTED_PATTERNS ->
  matches (compile pattern) (relative_segments cwd (toPosix p)) = true ->
  isWriteProtected cwd p = true.
Proof.
  intros Hin Hm. unfold isWriteProtected. apply existsb_exists.
  exists (compile pattern). split; [| exact Hm].
  unfold compiled_patterns. apply in_map. exact Hin.
Qed.

Lemma append_same_eqb (e s : string) :
  s <> EmptyString -> String.eqb e (e ++ s) = false.
Proof.
  intros Hs. induction e as [| c e IH]; simpl.
  - destruct s; [contradiction | reflexivity].
  - rewrite Ascii.eqb_refl. exact IH.
Qed.

Lemma isAbsolute_app (a b : string) :
  isAbsolute a = true -> isAbsolute (a ++ b) = true.
Proof. destruct a as [| c a]; simpl; [discriminate | auto]. Qed.

(** An absolute path under an absolute root is rewritten to its
    root-relative segments. *)
Lemma relative_segments_under (w p : string) :
  isAbsolute (toPosix w) = true ->
  relative_segments w (toPosix (w ++ "/" ++ p)) = path_segments (toPosix p).
Proof.
  intros Hw. unfold relative_segments.
  rewrite path_segments_under, strip_prefix_app.
  rewrite toPosix_app, isAbsolute_app by exact Hw.
  reflexivity.
Qed.

(** Evaluation of the pattern set on a name that extends an exact name. *)
Ltac extension_case s :=
  destruct s as [| ? ?]; [contradiction |];
  cbn -[glob_match];
  repeat match goal with
         | |- context [glob_match ?g ?x] =>
             lazymatch g with
             | "*.code-workspace" => fail
             | _ => replace (glob_match g x) with false by reflexivity
             end
         end;
  cbn -[glob_match];
  rewrite ?andb_true_r, ?orb_false_r;
  reflexivity.

Lemma extension_only_workspace (cwd e s : string) :
  In e exact_names -> s <> EmptyString -> separator_free s = true ->
  isWriteProtected cwd (e ++ s) = glob_match "*.code-workspace" (e ++ s).
Proof.
  intros Hin Hs Hfree.
  simpl in Hin.
  destruct Hin as [<- | [<- | [<- | [<- | [<- | []]]]]];
    (rewrite isWriteProtected_name;
     [ extension_case s
     | rewrite separator_free_app, Hfree; reflexivity
     | discriminate ]).
Qed.

Lemma exact_pattern_not_by_prefix (e s : string) :
  In e exact_names -> s <> EmptyString ->
  matches (compile e) [(e ++ s)%string] = false.
Proof.
  intros Hin Hs.
  assert (Hc : compile e = {| anchored := false; segments := [Literal e] |}).
  { simpl in Hin.
    destruct Hin as [<- | [<- | [<- | [<- | [<- | []]]]]]; reflexivity. }
  rewrite Hc. unfold matches. simpl.
  rewrite append_same_eqb by exact Hs. reflexivity.
Qed.

(** C5: for a path [p] relative to the workspace root [w] that matches a
    pattern matching at any depth, [isWriteProtected] answers the same on
    [w + "/" + p] as on [p]; under an absolute root the absolute path is
    first rewritten to the root-relative segments of [p]. *)
Theorem isWriteProtected_absolute_same_as_relative (w p : string) :
  isAbsolute (toPosix p) = false ->
  matches_at_any_depth p ->
  isWriteProtected w (w ++ "/" ++ p) = isWriteProtected w p /\
  (isAbsolute (toPosix w) = true ->
   relative_segments w (toPosix (w ++ "/" ++ p)) = relative_segments w (toPosix p)).
Proof.
  intros Hrel (pattern & Hin & Hanch & Hm). split.
  - assert (Hp : isWriteProtected w p = true).
    { apply protected_by with pattern; [exact Hin |].
      rewrite relative_segments_relative by exact Hrel. exact Hm. }
    rewrite Hp. apply protected_by with pattern; [exact Hin |].
    unfold relative_segments. rewrite path_segments_under.
    destruct (isAbsolute (toPosix (w ++ "/" ++ p))).
    + rewrite strip_prefix_app. exact Hm.
    + unfold matches in *. rewrite Hanch in *.
      apply match_tail_app. exact Hm.
  - intros Hw. rewrite relative_segments_under by exact Hw.
    symmetry. apply relative_segments_relative. exact Hrel.
Qed.

(** The test "should handle absolute paths by converting to relative". *)
Lemma isWriteProtected_absolute_same_as_relative_witness :
  isWriteProtected TEST_CWD (TEST_CWD ++ "/" ++ ".rooignore")
  = isWriteProtected TEST_CWD ".rooignore".
Proof.
  apply (isWriteProtected_absolute_same_as_relative TEST_CWD ".rooignore").
  - reflexivity.
  - exists ".rooignore". repeat split. left. reflexivity.
Defined.

(** C8: [annotatePathsWithProtection(list)] has the length of [list] and,
    at every index, the record made of the original path string and of
    [isWriteProtected] of that string. *)
Theorem annotatePathsWithProtection_pointwise (cwd : string) (paths : list string) :
  List.length (annotatePathsWithProtection cwd paths) = List.length paths /\
  forall i,
    nth_error (annotatePathsWithProtection cwd paths) i =
    option_map (fun p => {| path := p; isProtected := isWriteProtected cwd p |})
               (nth_error paths i).
Proof.
  unfold annotatePathsWithProtection. split.
  - apply length_map.
  - intros i. apply nth_error_map.
Qed.

(** C9: the exact ignore-file name is protected, at the root and as the
    last segment of any relative path; a name that extends an exact-name
    pattern is not matched by that pattern, and is protected only when it
    is a workspace file, so [.roosettings] and [.rooconfig] are not;
    ordinary source paths such as [src/index.ts] are not protected. *)
Theorem exact_names_protect_exactly (cwd : string) :
  isWriteProtected cwd ".rooignore" = true /\
  (forall p,
     isAbsolute (toPosix p) = false ->
     last (path_segments (toPosix p)) EmptyString = ".rooignore" ->
     isWriteProtected cwd p = true) /\
  (forall e s,
     In e exact_names -> s <> EmptyString -> separator_free s = true ->
     matches (compile e) [(e ++ s)%string] = false /\
     isWriteProtected cwd (e ++ s) = glob_match "*.code-workspace" (e ++ s)) /\
  isWriteProtected cwd ".roosettings" = false /\
  isWriteProtected cwd ".rooconfig" = false /\
  isWriteProtected cwd "src/index.ts" = false /\
  isWriteProtected cwd "package.json" = false /\
  isWriteProtected cwd "README.md" = false.
Proof.
  split; [reflexivity |].
  split.
  { intros p Hrel Hlast.
    apply protected_by with ".rooignore"; [left; reflexivity |].
    rewrite relative_segments_relative by exact Hrel.
    change (compile ".rooignore")
      with {| anchored := false; segments := [Literal ".rooignore"] |}.
    unfold matches. simpl anchored. cbv iota.
    apply match_last_literal; [exact Hlast | discriminate]. }
  split.
  { intros e s Hin Hs Hfree. split.
    - apply exact_pattern_not_by_prefix; assumption.
    - apply extension_only_workspace; assumption. }
  repeat split; reflexivity.
Qed.

Lemma exact_names_protect_exactly_witness :
  isWriteProtected TEST_CWD "nested/.rooignore" = true /\
  isWriteProtected TEST_CWD ".rooignore.bak" = false.
Proof.
  destruct (exact_names_protect_exactly TEST_CWD) as (_ & Hnested & Hext & _).
  split.
  - apply Hnested; reflexivity.
  - destruct (Hext ".rooignore" ".bak") as [_ Heq].
    + left. reflexivity.
    + discriminate.
    + reflexivity.
    + exact Heq.
Defined.

(** * Further properties of the write-protection classifier

    The classifier is the one modelled above from the specification and
    the test suite of the controller. *)



Lemma no_dot_segments_intro (p : string) :
  forallb (fun s => negb (String.eqb s "." || String.eqb s ".."))
          (path_segments (toPosix p)) = true ->
  no_dot_segments p.
Proof.
  intros H. rewrite forallb_forall in H.
  split; intros Hin; apply H in Hin; discriminate Hin.
Qed.


(** The star of a glob, one character at a time. *)
Lemma glob_match_star (g s : string) :
  glob_match (String star g) s =
  glob_match g s ||
  match s with
  | EmptyString => false
  | String _ s' => glob_match (String star g) s'
  end.
Proof. destruct s; reflexivity. Qed.

Lemma glob_match_star_any (s : string) : glob_match (String star EmptyString) s = true.
Proof.
  induction s as [| c s IH]; [reflexivity |].
  rewrite glob_match_star. cbv iota. rewrite IH.
  apply orb_true_r.
Qed.

Lemma glob_match_refl (g : string) : has_star g = false -> glob_match g g = true.
Proof.
  induction g as [| c g IH]; simpl; [reflexivity |].
  intros H. apply orb_false_iff in H. destruct H as [Hc Hg].
  rewrite Hc, Ascii.eqb_refl. apply IH, Hg.
Qed.

Lemma glob_match_star_suffix (g n : string) :
  has_star g = false -> glob_match (String star g) (n ++ g) = true.
Proof.
  intros Hg. induction n as [| c n IH].
  - rewrite glob_match_star. simpl append. rewrite glob_match_refl by exact Hg. reflexivity.
  - rewrite glob_match_star. simpl append. cbv iota. rewrite IH. apply orb_true_r.
Qed.

(** X14: every name that starts with [.roorules] or with [.clinerules]
    is protected, whatever follows in the name. *)
Theorem rules_prefix_families_protected (cwd s : string) :
  separator_free s = true ->
  isWriteProtected cwd (".roorules" ++ s) = true /\
  isWriteProtected cwd (".clinerules" ++ s) = true.
Proof.
  intros Hs. split.
  - rewrite isWriteProtected_name;
      [| rewrite separator_free_app, Hs; reflexivity | discriminate].
    apply existsb_exists. exists (compile ".roorules*").
    split; [unfold compiled_patterns; apply in_map; simpl; tauto |].
    change (compile ".roorules*")
      with {| anchored := false; segments := [Wildcard ".roorules*"] |}.
    unfold matches. cbn [anchored segments tails existsb match_segments].
    replace (glob_match ".roorules*" (".roorules" ++ s))
      with (glob_match (String star EmptyString) s) by reflexivity.
    rewrite glob_match_star_any. reflexivity.
  - rewrite isWriteProtected_name;
      [| rewrite separator_free_app, Hs; reflexivity | discriminate].
    apply existsb_exists. exists (compile ".clinerules*").
    split; [unfold compiled_patterns; apply in_map; simpl; tauto |].
    change (compile ".clinerules*")
      with {| anchored := false; segments := [Wildcard ".clinerules*"] |}.
    unfold matches. cbn [anchored segments tails existsb match_segments].
    replace (glob_match ".clinerules*" (".clinerules" ++ s))
      with (glob_match (String star EmptyString) s) by reflexivity.
    rewrite glob_match_star_any. reflexivity.
Qed.

Lemma rules_prefix_families_protected_witness :
  isWriteProtected TEST_CWD ".roorules.md" = true /\
  isWriteProtected TEST_CWD ".clinerules.md" = true.
Proof.
  apply (rules_prefix_families_protected TEST_CWD ".md"). reflexivity.
Defined.

(** X15: every name that ends in [.code-workspace] is protected, the
    bare [.code-workspace] included. *)
Theorem workspace_files_protected (cwd n : string) :
  separator_free n = true ->
  isWriteProtected cwd (n ++ ".code-workspace") = true.
Proof.
  intros Hn.
  rewrite isWriteProtected_name;
    [| rewrite separator_free_app, Hn; reflexivity
     | destruct n; discriminate].
  apply existsb_exists. exists (compile "*.code-workspace").
  split; [unfold compiled_patterns; apply in_map; simpl; tauto |].
  change (compile "*.code-workspace")
    with {| anchored := false; segments := [Wildcard "*.code-workspace"] |}.
  unfold matches. cbn [anchored segments tails existsb match_segments].
  change "*.code-workspace" with (String star ".code-workspace").
  rewrite glob_match_star_suffix by reflexivity. reflexivity.
Qed.

Lemma workspace_files_protected_witness :
  isWriteProtected TEST_CWD "myproject.code-workspace" = true.
Proof.
  apply (workspace_files_protected TEST_CWD "myproject"). reflexivity.
Defined.

Lemma globstar_takes_the_rest (l : list string) :
  l <> [] -> match_segments [Globstar] l = true.
Proof.
  induction l as [| x l IH]; [contradiction |].
  intros _. destruct l as [| y l].
  - reflexivity.
  - change (match_segments [Globstar] (x :: y :: l))
      with (match_segments [] (y :: l) || match_segments [Globstar] (y :: l)).
    rewrite IH by discriminate. apply orb_true_r.
Qed.

(** X16: every relative path without [.] or [..] segments that goes
    through the [.bitx] or the [.vscode] directory of the root, at least
    one segment deep, is protected. *)
Theorem root_configuration_directories_protected (cwd p d x : string) (rest : list string) :
  isAbsolute (toPosix p) = false ->
  no_dot_segments p ->
  path_segments (toPosix p) = d :: x :: rest ->
  d = ".bitx" \/ d = ".vscode" ->
  isWriteProtected cwd p = true.
Proof.
  intros Hrel _ Hsegs Hd.
  assert (Hm : match_segments [Literal d; Globstar] (d :: x :: rest) = true).
  { change (match_segments [Literal d; Globstar] (d :: x :: rest))
      with (String.eqb d d && match_segments [Globstar] (x :: rest)).
    rewrite String.eqb_refl, globstar_takes_the_rest by discriminate. reflexivity. }
  destruct Hd as [-> | ->].
  - apply protected_by with ".bitx/**"; [simpl; tauto |].
    rewrite relative_segments_relative, Hsegs by exact Hrel.
    change (compile ".bitx/**")
      with {| anchored := false; segments := [Literal ".bitx"; Globstar] |}.
    unfold matches. cbn [anchored segments tails existsb].
    rewrite Hm. reflexivity.
  - apply protected_by with ".vscode/**"; [simpl; tauto |].
    rewrite relative_segments_relative, Hsegs by exact Hrel.
    change (compile ".vscode/**")
      with {| anchored := false; segments := [Literal ".vscode"; Globstar] |}.
    unfold matches. cbn [anchored segments tails existsb].
    rewrite Hm. reflexivity.
Qed.

Lemma root_configuration_directories_protected_witness :
  isWriteProtected TEST_CWD ".bitx\settings/user.json" = true.
Proof.
  apply (root_configuration_directories_protected TEST_CWD ".bitx\settings/user.json"
           ".bitx" "settings" ["user.json"]).
  - reflexivity.
  - apply no_dot_segments_intro. reflexivity.
  - reflexivity.
  - left. reflexivity.
Defined.

(** ** The set of protected files *)

Lemma getProtectedFiles_fold (cwd : string) (paths : list string) (acc : StringSet) :
  NoDup acc ->
  NoDup (fold_left (fun s filePath =>
                      if isWriteProtected cwd filePath then Set_add s filePath else s)
                   paths acc) /\
  forall p,
    In p (fold_left (fun s filePath =>
                       if isWriteProtected cwd filePath then Set_add s filePath else s)
                    paths acc) <->
    In p acc \/ (In p paths /\ isWriteProtected cwd p = true).
Proof.
  revert acc. induction paths as [| q paths IH]; intros acc Hnd; simpl.
  - split; [exact Hnd |]. intros p. tauto.
  - destruct (isWriteProtected cwd q) eqn:Hq.
    + destruct (IH (Set_add acc q) (Set_add_NoDup acc q Hnd)) as [Hnd' Hin].
      split; [exact Hnd' |]. intros p. rewrite Hin, Set_add_In_iff.
      split.
      * intros [[-> | H] | [H1 H2]]; auto.
      * intros [H | [[<- | H1] H2]]; auto.
    + destruct (IH acc Hnd) as [Hnd' Hin].
      split; [exact Hnd' |]. intros p. rewrite Hin.
      split.
      * intros [H | [H1 H2]]; auto.
      * intros [H | [[<- | H1] H2]]; auto. congruence.
Qed.

(** X17: [getProtectedFiles(paths)] holds exactly the strings of [paths]
    that are protected, each of them once and as it was given. *)
Theorem getProtectedFiles_exact (cwd : string) (paths : list string) :
  NoDup (getProtectedFiles cwd paths) /\
  forall p,
    In p (getProtectedFiles cwd paths) <->
    In p paths /\ isWriteProtected cwd p = true.
Proof.
  destruct (getProtectedFiles_fold cwd paths Set_new) as [Hnd Hin]; [constructor |].
  split; [exact Hnd |].
  intros p. unfold getProtectedFiles. rewrite Hin. simpl. tauto.
Qed.

(** * The test suites, run on the model *)

Section RooConfigSuite.

Let search (results : list FileResult) : Platform Mock.World :=
  Mock.platform "/mock/home" [] [] (Fulfilled results).

Example regex_nested :
  match_bitx_prefix "packages/core/.bitx/rules/rule.md" = Some "packages/core".
Proof. reflexivity. Qed.

Example regex_root_has_no_match : match_bitx_prefix ".bitx/rules/rule.md" = None.
Proof. reflexivity. Qed.

Example regex_is_lazy :
  match_bitx_prefix "a\.bitx\b/.bitx/rule.md" = Some "a".
Proof. reflexivity. Qed.

Example discover_sorts_alphabetically :
  RooConfig.discoverSubfolderRooDirectories
    (search [Mock.file "zebra/.bitx/rules/rule.md";
             Mock.file "apple/.bitx/rules/rule.md";
             Mock.file "mango/.bitx/rules/rule.md"])
    "/project/path" []
  = (Fulfilled ["/project/path/apple/.bitx";
                "/project/path/mango/.bitx";
                "/project/path/zebra/.bitx"],
     ["rg /project/path"]).
Proof. reflexivity. Qed.

Example discover_excludes_root_and_deduplicates :
  RooConfig.discoverSubfolderRooDirectories
    (search [Mock.file ".bitx/rules/rule.md";
             Mock.file "./.bitx/rules/rule.md";
             Mock.file "package-a/.bitx/rules/rule1.md";
             Mock.file "package-a/.bitx/rules/rule2.md";
             Mock.file "package-a/.bitx/rules-code/rule3.md"])
    "/project/path" []
  = (Fulfilled ["/project/path/package-a/.bitx"], ["rg /project/path"]).
Proof. reflexivity. Qed.

Example getAll_keeps_order :
  RooConfig.getAllRooDirectoriesForCwd
    (search [Mock.file "zebra/.bitx/rules/rule.md";
             Mock.file "apple/.bitx/rules/rule.md"])
    "/project/path" []
  = (Fulfilled ["/mock/home/.bitx";
                "/project/path/.bitx";
                "/project/path/apple/.bitx";
                "/project/path/zebra/.bitx"],
     ["rg /project/path"]).
Proof. reflexivity. Qed.

Example getAgents_parents :
  RooConfig.getAgentsDirectoriesForCwd
    (search [Mock.file "package-a/.bitx/rules/rule.md";
             Mock.file "package-b/.bitx/rules-code/rule.md";
             Mock.file "packages/core/.bitx/rules/rule.md"])
    "/project/path" []
  = (Fulfilled ["/project/path";
                "/project/path/package-a";
                "/project/path/package-b";
                "/project/path/packages/core"],
     ["rg /project/path"]).
Proof. reflexivity. Qed.

Example getAgents_root_alone :
  RooConfig.getAgentsDirectoriesForCwd failing_search "/project/path" []
  = (Fulfilled ["/project/path"], ["rg /project/path"]).
Proof. reflexivity. Qed.

Example load_global_only :
  RooConfig.loadConfiguration
    (rules_host (Fulfilled "global content") (Rejected Mock.ENOENT))
    "rules/rules.md" "/project/path" []
  = (Fulfilled {| RooConfig.global := Some "global content";
                  RooConfig.project := None;
                  RooConfig.merged := "global content" |},
     ["readFile /mock/home/.bitx/rules/rules.md";
      "readFile /project/path/.bitx/rules/rules.md"]).
Proof. reflexivity. Qed.

Example load_neither :
  RooConfig.loadConfiguration
    (rules_host (Rejected Mock.ENOTDIR) (Rejected Mock.EISDIR))
    "rules/rules.md" "/project/path" []
  = (Fulfilled {| RooConfig.global := None;
                  RooConfig.project := None;
                  RooConfig.merged := EmptyString |},
     ["readFile /mock/home/.bitx/rules/rules.md";
      "readFile /project/path/.bitx/rules/rules.md"]).
Proof. reflexivity. Qed.

Example load_global_permission_denied :
  RooConfig.loadConfiguration
    (rules_host (Rejected Mock.EACCES) (Fulfilled "project content"))
    "rules/rules.md" "/project/path" []
  = (Rejected Mock.EACCES, ["readFile /mock/home/.bitx/rules/rules.md"]).
Proof. reflexivity. Qed.

Example directoryExists_permission_denied :
  RooConfig.directoryExists
    (Mock.platform "/mock/home" [("/permission/denied", Rejected Mock.EACCES)] []
       (Fulfilled []))
    "/permission/denied" []
  = (Rejected Mock.EACCES, ["stat /permission/denied"]).
Proof. reflexivity. Qed.

Example fileExists_for_directory :
  RooConfig.fileExists
    (Mock.platform "/mock/home"
       [("/some/directory", Fulfilled {| isDirectory := true; isFile := false |})] []
       (Fulfilled []))
    "/some/directory" []
  = (Fulfilled false, ["stat /some/directory"]).
Proof. reflexivity. Qed.

End RooConfigSuite.

Example protects_configuration_files :
  map (isWriteProtected TEST_CWD)
      [".rooignore"; ".bitx/config.json"; ".bitx/settings/user.json";
       ".rooprotected"; ".roomodes"; ".roorules"; ".roorules.md";
       ".clinerules.md"; ".vscode/tasks.json"; "myproject.code-workspace";
       ".code-workspace"; "folder/workspace.code-workspace"; "AGENTS.md";
       "AGENT.md"; "nested/.roomodes"; "nested/.roorules.md";
       "/test/workspace/.rooignore"; ".bitx\config.json"]
  = repeat true 18.
Proof. reflexivity. Qed.

Example leaves_regular_files :
  map (isWriteProtected TEST_CWD)
      [".roosettings"; ".rooconfig"; "src/index.ts"; "package.json";
       "README.md"; "src/bitx-utils.ts"; "config/bitx.config.js"; EmptyString]
  = repeat false 8.
Proof. reflexivity. Qed.

Example workspace_suffix_protects_an_extended_name :
  isWriteProtected TEST_CWD ".rooignore.code-workspace" = true.
Proof. reflexivity. Qed.

Example getProtectedFiles_of_list :
  getProtectedFiles TEST_CWD
    ["src/index.ts"; ".rooignore"; "package.json"; ".bitx/config.json"; "README.md";
     ".rooignore"]
  = [".rooignore"; ".bitx/config.json"].
Proof. reflexivity. Qed.

Example annotate_of_list :
  annotatePathsWithProtection TEST_CWD
    ["src/index.ts"; ".rooignore"; ".bitx/config.json"; "package.json"]
  = [{| path := "src/index.ts"; isProtected := false |};
     {| path := ".rooignore"; isProtected := true |};
     {| path := ".bitx/config.json"; isProtected := true |};
     {| path := "package.json"; isProtected := false |}].
Proof. reflexivity. Qed.
